(* ===== verification/_CoqProject ===== *)
-Q . S2P
Prelude.v
JsString.v
Binary64.v
JsNumber.v
FormatNumber.v
TierClass.v
Gauge.v
Dom.v
Breakdown.v
Render.v
Controller.v
