(* ===== verification/Prelude.v ===== *)
(** * Verification of the influencer-score front end ([src/static/script.js])

    ** The program

    [script.js] is the whole client: an [async] listener on the form's
    [submit] event (lines 1-43) and three functions, [displayResults]
    (45-106), [updateBreakdown] (108-112) and [formatNumber] (114-121).
    The listener marks the page busy, POSTs the trimmed username to
    [/analyze], and on the reply either calls [displayResults] or shows
    the error, re-enabling the button in [finally].  [displayResults]
    writes the result into the page: texts, the tier badge's class, the
    score gauge's dash offset and colour, five breakdown bars through
    [updateBreakdown], counts through [formatNumber].

    ** The files

    - [Prelude]: the JavaScript effect monad [St S A = S -> completion A
      * S] (a throw keeps the state, as the DOM keeps writes done before
      an exception), its notations in [js_scope], setoid equality [st_eq]
      with [Proper] instances for rewriting under [bind], the hint
      databases [js] and [js_monad], shared lemmas on strings and [Q].
    - [JsString]: [toLowerCase] (ASCII), [replace] with a global
      one-character regex and with a string pattern (first occurrence),
      [trim], and the splitting of [className] into class tokens.
    - [Binary64]: JavaScript numbers as IEEE-754 binary64, exactly, on
      rationals: [round] to nearest-even (53 bits, least exponent -1074),
      overflow to the infinities in [rnd], the type [num] with NaN and
      the infinities, and [add], [sub], [mul], [div], [ge]; the error
      bound [round_err] and monotonicity of rounding.
    - [JsNumber]: Number::toString (shortest round-tripping digits) and
      [toFixed(1)] of ECMA-262, on the exact value of a double.
    - [FormatNumber]: [formatNumber] (lines 114-121).
    - [TierClass]: the class of line 67 and the [className] of line 68.
    - [Gauge]: [circumference], [gaugeOffset] (lines 72-74) and
      [gaugeColor] (76-82).
    - [Dom]: the page as stdpp's [gmap] from ids to elements;
      [document.getElementById(id).prop = v] is [set_write], which throws
      the TypeError of a [null] element; a sequence of writes is
      [run_writes], its effect [final], read back with [field_after].
    - [Breakdown]: [updateBreakdown] (108-112), [percentage] (line 110)
      and the two writes of a call as data.
    - [Render]: the result body as records, [displayResults] written
      line by line in the monad, and shown equal ([st_eq]) to running
      its list of writes [render_writes]; the class [RenderContract]
      states what the submit handler needs of the renderer, and
      [displayResults] is its instance.
    - [Controller]: the listener split at its [await]:
      [handler_start] (lines 2-16) and [handler_finish] (18-42, [try]/
      [catch]/[finally] of the monad); the state of the page with the
      requests in flight, and the [step] relation in which submissions
      and replies interleave; [may_submit] says when a submission can
      happen ([btn_enabled] for a user, anything for a programmatic one).
      The reply half is written for any renderer ([handler_finish_with])
      and proved in the section [Contract] against [RenderContract]; the
      specification's [Idle]/[Submitting] machine is [spec_step] on the
      abstraction [abs_of].

    ** The theorems (claim ids of the manifest)

    - Rendering (C1-C4, C6): every text slot holds the view model's text
      and the picture, badge class, gauge colour and section visibility
      are set; [displayResults] completes exactly when the page has the
      elements it writes (the badges only when flagged), and a missing
      results section throws after a partial render; a verified badge
      is never hidden.
    - Controller (C5, C28, C30): under the button's guard at most one
      request is in flight and the button is disabled exactly while it
      is, an invariant proved by induction on [star]; every step is a
      step of the specification's machine on the phase and the shown
      sections (a forward simulation without stuttering); replies always
      bring the page back to idle.
    - Handler (C22-C27, C29): success and error paths, the [finally]
      guarantee, the trimmed username, the missing button; a concrete
      session with programmatic submissions where error and results show
      together (C25); a missing loader that leaves the button disabled
      for good (C29).
    - formatNumber (C7-C10): the K and M branches within half a tenth of
      the count, exact away from ties; below 1000 the digits, read back
      to the count; 999950 to 999999 print as [1000.0K].
    - Tier class (C11-C14); gauge (C15-C17): monotone, within 2^-42 of
      the real offset, colour bands monotone; bars (C18-C21): within
      2^-45 percent of [100 * s / max] up to the maximum, monotone, and
      within a relative 2^-51 above it (no clamp); the exact page after
      one [updateBreakdown].

    ** Bounds and fuel

    [Number::toString] searches digit counts 1 to 17: 17 significant
    digits always identify a double, so the search never runs out.
    [digits] recurses [Pos.size_nat] times, more than the number of
    decimal digits.  The K and M theorems hold for integer counts up to
    2^53, where every integer is a double; below 1000 the claim is
    decided on all thousand counts by evaluation.

    ** Not modelled

    The [/analyze] service and the network (their replies are the
    [outcome] type: a failure, an unreadable body, an ok or error status
    with a result or error body); the HTML template and stylesheet
    (the page is the set of ids the code uses); signed zero, which the
    program never prints differently; [toLowerCase] beyond ASCII; the
    timing of events, abstracted by the nondeterminism of [step]. *)

From Stdlib Require Import ZArith QArith Qround Lqa Lia String List Morphisms Setoid.
Import ListNotations.

(** ** The JavaScript effect monad

    [displayResults] and the submit handler mutate the document and may
    throw.  A DOM mutation performed before an exception is NOT rolled
    back, so the monad keeps the state on both outcomes: a computation is
    [S -> completion A * S]. *)

Inductive completion (A : Type) : Type :=
| Normal (a : A)
| Throw (msg : string).
Arguments Normal {A} a.
Arguments Throw {A} msg.

Definition St (S A : Type) : Type := S -> completion A * S.

Definition ret {S A} (a : A) : St S A := fun s => (Normal a, s).

Definition throw {S A} (msg : string) : St S A := fun s => (Throw msg, s).

Definition bind {S A B} (m : St S A) (k : A -> St S B) : St S B :=
  fun s => match m s with
           | (Normal a, s') => k a s'
           | (Throw e, s') => (Throw e, s')
           end.

Definition modify {S} (f : S -> S) : St S unit := fun s => (Normal tt, f s).

Definition gets {S A} (f : S -> A) : St S A := fun s => (Normal (f s), s).

(** [try { m } catch (e) { h(e.message) }]: the handler runs on the state
    the failing computation left behind. *)
Definition try_catch {S A} (m : St S A) (h : string -> St S A) : St S A :=
  fun s => match m s with
           | (Normal a, s') => (Normal a, s')
           | (Throw e, s') => h e s'
           end.

(** [try { m } finally { f }]: [f] runs on both outcomes; the outcome
    of [m] is kept unless [f] itself throws. *)
Definition try_finally {S A} (m : St S A) (f : St S unit) : St S A :=
  fun s => let (r, s1) := m s in
           match f s1 with
           | (Normal _, s2) => (r, s2)
           | (Throw e, s2) => (Throw e, s2)
           end.

Declare Scope js_scope.
Delimit Scope js_scope with js.
Notation "'let*' x := m 'in' k" := (bind m (fun x => k))
  (at level 10, x name, m at level 100, k at level 200) : js_scope.
Notation "m ;; k" := (bind m (fun _ => k))
  (at level 100, k at level 200) : js_scope.

Create HintDb js.
Create Rewrite HintDb js_monad.

(** ** Monad laws *)

Lemma bind_ret_l {S A B} (a : A) (k : A -> St S B) s :
  bind (ret a) k s = k a s.
Proof. reflexivity. Qed.

Lemma bind_assoc {S A B C} (m : St S A) (k : A -> St S B) (k' : B -> St S C) s :
  bind (bind m k) k' s = bind m (fun a => bind (k a) k') s.
Proof. unfold bind. destruct (m s) as [[a|e] s']; reflexivity. Qed.

Lemma bind_modify {S B} (f : S -> S) (k : unit -> St S B) s :
  bind (modify f) k s = k tt (f s).
Proof. reflexivity. Qed.

Lemma bind_throw {S A B} (e : string) (k : A -> St S B) s :
  bind (throw e) k s = (Throw e, s).
Proof. reflexivity. Qed.

#[export] Hint Rewrite @bind_ret_l @bind_assoc @bind_modify @bind_throw : js_monad.

(** Computations are compared by their outcome on every state: the monad
    laws hold up to this equivalence, and [bind] respects it, so programs
    are normalised by setoid rewriting under binders. *)
Definition st_eq {S A} (m1 m2 : St S A) : Prop := forall s, m1 s = m2 s.

#[export] Instance st_eq_Equivalence {S A} : Equivalence (@st_eq S A).
Proof.
  split; unfold st_eq.
  - intros m s. reflexivity.
  - intros m1 m2 H s. symmetry. apply H.
  - intros m1 m2 m3 H1 H2 s. rewrite H1. apply H2.
Qed.

#[export] Instance bind_Proper {S A B} :
  Proper (st_eq ==> pointwise_relation A st_eq ==> st_eq) (@bind S A B).
Proof.
  intros m1 m2 Hm k1 k2 Hk s. unfold bind. rewrite Hm.
  destruct (m2 s) as [[a|e] s']; [apply Hk | reflexivity].
Qed.

Lemma bind_assoc_eq {S A B C} (m : St S A) (k : A -> St S B) (k' : B -> St S C) :
  st_eq (bind (bind m k) k') (bind m (fun a => bind (k a) k')).
Proof. intros s. apply bind_assoc. Qed.

Lemma bind_ret_l_eq {S A B} (a : A) (k : A -> St S B) : st_eq (bind (ret a) k) (k a).
Proof. intros s. reflexivity. Qed.

(** ** Strings *)

Lemma string_app_assoc (a b c : string) : ((a ++ b) ++ c)%string = (a ++ b ++ c)%string.
Proof. induction a as [|ch a IH]; simpl; [reflexivity | rewrite IH; reflexivity]. Qed.

Lemma string_app_nil_r (a : string) : (a ++ "")%string = a.
Proof. induction a as [|ch a IH]; simpl; [reflexivity | rewrite IH; reflexivity]. Qed.

#[export] Hint Rewrite string_app_assoc string_app_nil_r : js_monad.

(** ** Generic arithmetic lemmas on [Q] shared by the numeric files *)

Lemma Qmult_le_mono_pos_r (a b c : Q) : 0 < c -> a <= b -> a * c <= b * c.
Proof. intros Hc Hab. apply Qmult_le_compat_r; [exact Hab | apply Qlt_le_weak; exact Hc]. Qed.

Lemma Qmult_lt_mono_pos_r (a b c : Q) : 0 < c -> a < b -> a * c < b * c.
Proof. intros Hc Hab. apply Qmult_lt_compat_r; assumption. Qed.

Lemma Qle_bool_iff_le (a b : Q) : Qle_bool a b = true <-> a <= b.
Proof. apply Qle_bool_iff. Qed.

Lemma inject_Z_le (a b : Z) : (a <= b)%Z <-> inject_Z a <= inject_Z b.
Proof. rewrite Zle_Qle. reflexivity. Qed.

Lemma inject_Z_lt (a b : Z) : (a < b)%Z <-> inject_Z a < inject_Z b.
Proof. rewrite Zlt_Qlt. reflexivity. Qed.

Lemma inject_Z_nonneg (z : Z) : (0 <= z)%Z -> 0 <= inject_Z z.
Proof. intros H. change 0 with (inject_Z 0). rewrite <- inject_Z_le. exact H. Qed.

Lemma inject_Z_pos (z : Z) : (0 < z)%Z -> 0 < inject_Z z.
Proof. intros H. change 0 with (inject_Z 0). rewrite <- inject_Z_lt. exact H. Qed.

#[export] Hint Resolve inject_Z_nonneg inject_Z_pos : js.

Lemma inject_Z_sub (x y : Z) : inject_Z (x - y) == inject_Z x - inject_Z y.
Proof. unfold Qeq, Qminus, Qplus, Qopp, inject_Z; simpl. ring. Qed.

(** Boolean tests of the code as propositions. *)
Ltac qbool :=
  repeat match goal with
  | H : Qle_bool _ _ = true |- _ => apply Qle_bool_iff in H
  | H : Qle_bool _ _ = false |- _ =>
      let H' := fresh H in
      assert (H' := H); rewrite <- Bool.not_true_iff_false, Qle_bool_iff in H';
      clear H; rename H' into H; apply Qnot_le_lt in H
  end.
