(* ===== verification/JsString.v ===== *)
(** * String built-ins used by [script.js]

    [String.prototype.toLowerCase], [String.prototype.replace] with a
    global regular expression for one character and with a string
    pattern (first occurrence only), and the splitting of a [className]
    into class tokens (DOM [classList], split on ASCII whitespace).
    Strings are byte strings: [toLowerCase] is modelled on ASCII, the
    alphabet of the tier labels. *)

From Stdlib Require Import String Ascii List Arith Lia.
From S2P Require Import Prelude.
Import ListNotations.
Local Open Scope string_scope.
Local Open Scope bool_scope.

Definition lower_ascii (c : ascii) : ascii :=
  let n := nat_of_ascii c in
  if Nat.leb 65 n && Nat.leb n 90 then ascii_of_nat (n + 32) else c.

Fixpoint toLowerCase (s : string) : string :=
  match s with
  | EmptyString => EmptyString
  | String c s' => String (lower_ascii c) (toLowerCase s')
  end.

(** [s.replace(/c/g, r)]: every occurrence of the character [c], left to
    right, replaced by [r]; the replacement is not scanned again. *)
Fixpoint replace_all_char (c : ascii) (r s : string) : string :=
  match s with
  | EmptyString => EmptyString
  | String c' s' =>
      if Ascii.eqb c c' then r ++ replace_all_char c r s'
      else String c' (replace_all_char c r s')
  end.

(** [s.replace(p, r)] with a one-character string [p]: only the first
    occurrence is replaced. *)
Fixpoint replace_first_char (c : ascii) (r s : string) : string :=
  match s with
  | EmptyString => EmptyString
  | String c' s' =>
      if Ascii.eqb c c' then r ++ s' else String c' (replace_first_char c r s')
  end.

(** ASCII whitespace as the DOM token list splits it. *)
Definition is_ascii_ws (c : ascii) : bool :=
  existsb (Nat.eqb (nat_of_ascii c)) [32; 9; 10; 12; 13]%nat.

(** Split [s] into tokens separated by whitespace; [cur] is the token
    being read. *)
Fixpoint split_tokens (cur s : string) : list string :=
  match s with
  | EmptyString => if String.eqb cur "" then [] else [cur]
  | String c s' =>
      if is_ascii_ws c then app (if String.eqb cur "" then [] else [cur]) (split_tokens "" s')
      else split_tokens (cur ++ String c "") s'
  end.

Definition class_tokens (className : string) : list string := split_tokens "" className.

(** [c] occurs in [s]. *)
Fixpoint has_char (c : ascii) (s : string) : bool :=
  match s with
  | EmptyString => false
  | String c' s' => Ascii.eqb c c' || has_char c s'
  end.

(** No whitespace character occurs in [s]. *)
Fixpoint no_ws (s : string) : bool :=
  match s with
  | EmptyString => true
  | String c s' => negb (is_ascii_ws c) && no_ws s'
  end.

(** ** Lemmas *)

Lemma toLowerCase_app (a b : string) : toLowerCase (a ++ b) = toLowerCase a ++ toLowerCase b.
Proof. induction a as [|c a IH]; simpl; [reflexivity | rewrite IH; reflexivity]. Qed.

Lemma replace_all_char_app (c : ascii) (r a b : string) :
  replace_all_char c r (a ++ b) = replace_all_char c r a ++ replace_all_char c r b.
Proof.
  induction a as [|c' a IH]; simpl; [reflexivity |].
  destruct (Ascii.eqb c c'); rewrite IH; [symmetry; apply string_app_assoc | reflexivity].
Qed.

Lemma has_char_app (c : ascii) (a b : string) : has_char c (a ++ b) = has_char c a || has_char c b.
Proof. induction a as [|c' a IH]; simpl; [reflexivity | rewrite IH; apply Bool.orb_assoc]. Qed.

Lemma replace_first_char_absent (c : ascii) (r s : string) :
  has_char c s = false -> replace_first_char c r s = s.
Proof.
  induction s as [|c' s IH]; simpl; [reflexivity |].
  intros H. apply Bool.orb_false_iff in H as [H1 H2]. rewrite H1, IH by exact H2. reflexivity.
Qed.

(** Only the first occurrence is replaced: the text after it is kept. *)
Lemma replace_first_char_split (c : ascii) (r a b : string) :
  has_char c a = false -> replace_first_char c r (a ++ String c b) = a ++ r ++ b.
Proof.
  induction a as [|c' a IH]; simpl; intros H.
  - rewrite Ascii.eqb_refl. reflexivity.
  - apply Bool.orb_false_iff in H as [H1 H2]. rewrite H1, IH by exact H2. reflexivity.
Qed.

Lemma has_char_replace_all (c d : ascii) (r s : string) :
  has_char d r = false -> has_char d s = false -> has_char d (replace_all_char c r s) = false.
Proof.
  intros Hr. induction s as [|c' s IH]; simpl; [reflexivity |].
  intros H. apply Bool.orb_false_iff in H as [H1 H2].
  destruct (Ascii.eqb c c'); simpl; rewrite ?has_char_app, ?Hr, ?H1, IH by exact H2; reflexivity.
Qed.

Lemma has_char_replace_all_self (c : ascii) (r s : string) :
  has_char c r = false -> has_char c (replace_all_char c r s) = false.
Proof.
  intros Hr. induction s as [|c' s IH]; simpl; [reflexivity |].
  destruct (Ascii.eqb c c') eqn:E; simpl; rewrite ?has_char_app, ?Hr, ?E, IH; reflexivity.
Qed.

Lemma has_char_replace_first (c d : ascii) (r s : string) :
  has_char d r = false -> has_char d s = false -> has_char d (replace_first_char c r s) = false.
Proof.
  intros Hr. induction s as [|c' s IH]; simpl; [reflexivity |].
  intros H. apply Bool.orb_false_iff in H as [H1 H2].
  destruct (Ascii.eqb c c'); simpl; rewrite ?has_char_app, ?Hr, ?H1, ?IH, ?H2 by exact H2; reflexivity.
Qed.

(** Lower-casing maps a character to a whitespace character exactly when
    it is one already, and never to a character it does not keep. *)
Lemma lower_ascii_ws (c : ascii) : is_ascii_ws (lower_ascii c) = is_ascii_ws c.
Proof.
  unfold lower_ascii. destruct (Nat.leb 65 _ && Nat.leb _ 90) eqn:E; [| reflexivity].
  apply Bool.andb_true_iff in E as [E1 E2]. apply Nat.leb_le in E1, E2.
  unfold is_ascii_ws. rewrite nat_ascii_embedding by (pose proof (nat_ascii_bounded c); lia).
  simpl. rewrite !(proj2 (Nat.eqb_neq _ _)) by lia. reflexivity.
Qed.

Lemma ascii_ws_code (c : ascii) : is_ascii_ws c = true ->
  nat_of_ascii c = 32 \/ nat_of_ascii c = 9 \/ nat_of_ascii c = 10 \/
  nat_of_ascii c = 12 \/ nat_of_ascii c = 13.
Proof.
  unfold is_ascii_ws; simpl. intros H.
  destruct (Nat.eqb_spec (nat_of_ascii c) 32); [tauto |].
  destruct (Nat.eqb_spec (nat_of_ascii c) 9); [tauto |].
  destruct (Nat.eqb_spec (nat_of_ascii c) 10); [tauto |].
  destruct (Nat.eqb_spec (nat_of_ascii c) 12); [tauto |].
  destruct (Nat.eqb_spec (nat_of_ascii c) 13); [tauto | discriminate].
Qed.

(** A whitespace character is matched by the lower-cased character
    exactly when it is matched by the original. *)
Lemma eqb_lower_ascii_ws (c c' : ascii) : is_ascii_ws c = true ->
  Ascii.eqb c (lower_ascii c') = Ascii.eqb c c'.
Proof.
  intros Hc. apply ascii_ws_code in Hc. unfold lower_ascii.
  destruct (Nat.leb 65 _ && Nat.leb _ 90) eqn:E; [| reflexivity].
  apply Bool.andb_true_iff in E as [E1 E2]. apply Nat.leb_le in E1, E2.
  destruct (Ascii.eqb_spec c (ascii_of_nat (nat_of_ascii c' + 32))) as [Heq | Hne];
    destruct (Ascii.eqb_spec c c') as [Heq' | Hne']; try reflexivity; exfalso.
  - apply (f_equal nat_of_ascii) in Heq.
    rewrite nat_ascii_embedding in Heq by (pose proof (nat_ascii_bounded c'); lia). lia.
  - subst c'. lia.
Qed.

Lemma has_char_toLowerCase_ws (c : ascii) (s : string) : is_ascii_ws c = true ->
  has_char c (toLowerCase s) = has_char c s.
Proof.
  intros Hc. induction s as [|c' s IH]; simpl; [reflexivity |].
  rewrite IH, eqb_lower_ascii_ws by exact Hc. reflexivity.
Qed.

Lemma no_ws_toLowerCase (s : string) : no_ws (toLowerCase s) = no_ws s.
Proof. induction s as [|c s IH]; simpl; [reflexivity | rewrite IH, lower_ascii_ws; reflexivity]. Qed.

Lemma no_ws_app (a b : string) : no_ws (a ++ b) = no_ws a && no_ws b.
Proof. induction a as [|c a IH]; simpl; [reflexivity | rewrite IH; apply Bool.andb_assoc]. Qed.

Lemma no_ws_replace_all (c : ascii) (r s : string) :
  no_ws r = true -> no_ws s = true -> no_ws (replace_all_char c r s) = true.
Proof.
  intros Hr. induction s as [|c' s IH]; simpl; [reflexivity |].
  intros H. apply Bool.andb_true_iff in H as [H1 H2].
  destruct (Ascii.eqb c c'); simpl; rewrite ?no_ws_app, ?Hr, ?H1, IH by exact H2; reflexivity.
Qed.

(** ** Splitting into class tokens *)

Lemma split_tokens_word (cur w : string) : no_ws w = true ->
  split_tokens cur w = if String.eqb (cur ++ w) "" then [] else [cur ++ w].
Proof.
  revert cur. induction w as [|c w IH]; intros cur H; simpl.
  - rewrite string_app_nil_r. reflexivity.
  - apply Bool.andb_true_iff in H as [H1 H2]. apply Bool.negb_true_iff in H1. rewrite H1.
    rewrite IH by exact H2. rewrite string_app_assoc. reflexivity.
Qed.

(** A word followed by a whitespace character ends the current token. *)
Lemma split_tokens_sep (cur w rest : string) (c : ascii) : no_ws w = true ->
  is_ascii_ws c = true ->
  split_tokens cur (w ++ String c rest) =
    app (if String.eqb (cur ++ w) "" then [] else [cur ++ w]) (split_tokens "" rest).
Proof.
  revert cur. induction w as [|c' w IH]; intros cur Hw Hc; simpl.
  - rewrite Hc, string_app_nil_r. reflexivity.
  - apply Bool.andb_true_iff in Hw as [H1 H2]. apply Bool.negb_true_iff in H1. rewrite H1.
    rewrite IH by assumption. rewrite string_app_assoc. reflexivity.
Qed.

Lemma toLowerCase_nonempty (s : string) : s <> "" -> toLowerCase s <> "".
Proof. destruct s; simpl; congruence. Qed.

Lemma replace_all_char_nonempty (c : ascii) (r s : string) : r <> "" -> s <> "" ->
  replace_all_char c r s <> "".
Proof.
  intros Hr Hs. destruct s as [|c' s]; [contradiction |]. simpl.
  destruct (Ascii.eqb c c'); [destruct r; simpl; congruence | discriminate].
Qed.

(** [String.prototype.trim] on byte strings: the ASCII white space and
    line terminators (tab, LF, VT, FF, CR, space) at both ends. *)
Definition is_trim_ws (c : ascii) : bool :=
  existsb (Nat.eqb (nat_of_ascii c)) [9; 10; 11; 12; 13; 32]%nat.

Fixpoint trim_start (s : string) : string :=
  match s with
  | EmptyString => EmptyString
  | String c s' => if is_trim_ws c then trim_start s' else s
  end.

Fixpoint rev_string_app (s acc : string) : string :=
  match s with
  | EmptyString => acc
  | String c s' => rev_string_app s' (String c acc)
  end.

Definition rev_string (s : string) : string := rev_string_app s "".

Definition trim (s : string) : string := rev_string (trim_start (rev_string (trim_start s))).

Example trim_example : trim "  jdoe   " = "jdoe".
Proof. reflexivity. Qed.
