(* ===== verification/Binary64.v ===== *)
(** * IEEE-754 binary64 arithmetic, the semantics of JavaScript numbers

    Every arithmetic operator of [script.js] ([/], [*], [-]) computes on
    binary64 values with round-to-nearest, ties-to-even.  This file gives
    that semantics exactly, on rationals: [round] maps an exact result to
    the nearest double (precision 53, least exponent -1074), [rnd] adds
    overflow to the infinities, and [num] is the type of JavaScript
    numbers.  Signed zero is not distinguished: the program only divides
    by non-zero constants and prints numbers, and [-0] prints as [0]. *)

From Stdlib Require Import ZArith QArith Qround Qpower Qabs Lqa Lia Morphisms.
From S2P Require Import Prelude.

Local Open Scope Q_scope.

(** ** Powers of two and binary magnitude *)

Definition pow2 (e : Z) : Q := Qpower (2 # 1) e.

(** [mag x] is [floor (log2 x)] for [x > 0]: computed from the bit lengths
    of numerator and denominator, then corrected by one comparison. *)
Definition mag (x : Q) : Z :=
  let k0 := (Z.log2 (Qnum x) - Z.log2 (Zpos (Qden x)))%Z in
  if Qlt_le_dec x (pow2 k0) then (k0 - 1)%Z else k0.

(** Round half to even of a rational, to an integer. *)
Definition rne (q : Q) : Z :=
  let f := Qfloor q in
  match Qcompare (q - inject_Z f) (1 # 2) with
  | Lt => f
  | Gt => (f + 1)%Z
  | Eq => if Z.even f then f else (f + 1)%Z
  end.

(** The exponent of the last significand bit of [x]: 53 bits of precision,
    gradual underflow below [2^-1022]. *)
Definition fexp (x : Q) : Z := Z.max (mag x - 52) (-1074).

Definition round_pos (x : Q) : Q :=
  let e := fexp x in Qred (inject_Z (rne (x * pow2 (- e))) * pow2 e).

(** Rounding to the nearest double, without overflow. *)
Definition round (x : Q) : Q :=
  match Qcompare x 0 with
  | Gt => round_pos x
  | Lt => - round_pos (- x)
  | Eq => 0
  end.

(** ** JavaScript numbers *)

Inductive num : Type :=
| Fin (q : Q)
| PInf
| NInf
| NaN.

(** The largest power of two above every finite double. *)
Definition overflow_bound : Q := pow2 1024.

(** The IEEE result of an exact value: round, then overflow to infinity. *)
Definition rnd (x : Q) : num :=
  let r := round x in
  if Qle_bool overflow_bound r then PInf
  else if Qle_bool r (- overflow_bound) then NInf
  else Fin r.

(** ** Powers of two *)

Lemma pow2_pos (e : Z) : 0 < pow2 e.
Proof. apply Qpower_0_lt. reflexivity. Qed.

Lemma pow2_plus (a b : Z) : pow2 (a + b) == pow2 a * pow2 b.
Proof. apply Qpower_plus. discriminate. Qed.

Lemma pow2_Z (e : Z) : (0 <= e)%Z -> pow2 e == inject_Z (2 ^ e).
Proof. intros He. unfold pow2. rewrite (Zpower_Qpower 2 e He). reflexivity. Qed.

Lemma pow2_lt_mono (a b : Z) : (a < b)%Z -> pow2 a < pow2 b.
Proof. intros H. apply Qpower_lt_compat_l; [exact H | reflexivity]. Qed.

Lemma pow2_le_mono (a b : Z) : (a <= b)%Z -> pow2 a <= pow2 b.
Proof. intros H. apply Qpower_le_compat_l; [exact H | discriminate]. Qed.

(** A power [2^(i-j)] as a fraction of integers. *)
Lemma pow2_sub (i j : Z) : (0 <= i)%Z -> (0 <= j)%Z ->
  pow2 (i - j) == (2 ^ i) # (Z.to_pos (2 ^ j)).
Proof.
  intros Hi Hj. unfold Z.sub. rewrite pow2_plus, pow2_Z by exact Hi.
  unfold pow2. rewrite Qpower_opp, <- (Zpower_Qpower 2 j Hj).
  assert (Hp : (0 < 2 ^ j)%Z) by (apply Z.pow_pos_nonneg; lia).
  unfold Qeq, Qmult, Qinv, inject_Z; simpl.
  destruct (2 ^ j)%Z eqn:E; try lia. simpl. lia.
Qed.

#[export] Hint Resolve pow2_pos pow2_lt_mono pow2_le_mono : js.

(** ** Binary magnitude *)

Lemma Qmake_le_pow2 (n : Z) (d : positive) (i j : Z) : (0 <= i)%Z -> (0 <= j)%Z ->
  (n # d) <= pow2 (i - j) <-> (n * 2 ^ j <= 2 ^ i * Zpos d)%Z.
Proof.
  intros Hi Hj. rewrite (pow2_sub i j Hi Hj). unfold Qle; simpl.
  rewrite Z2Pos.id by (apply Z.pow_pos_nonneg; lia). reflexivity.
Qed.

Lemma Qmake_lt_pow2 (n : Z) (d : positive) (i j : Z) : (0 <= i)%Z -> (0 <= j)%Z ->
  (n # d) < pow2 (i - j) <-> (n * 2 ^ j < 2 ^ i * Zpos d)%Z.
Proof.
  intros Hi Hj. rewrite (pow2_sub i j Hi Hj). unfold Qlt; simpl.
  rewrite Z2Pos.id by (apply Z.pow_pos_nonneg; lia). reflexivity.
Qed.

Lemma pow2_le_Qmake (n : Z) (d : positive) (i j : Z) : (0 <= i)%Z -> (0 <= j)%Z ->
  pow2 (i - j) <= (n # d) <-> (2 ^ i * Zpos d <= n * 2 ^ j)%Z.
Proof.
  intros Hi Hj. rewrite (pow2_sub i j Hi Hj). unfold Qle; simpl.
  rewrite Z2Pos.id by (apply Z.pow_pos_nonneg; lia). lia.
Qed.

Lemma mag_spec (x : Q) : 0 < x -> pow2 (mag x) <= x /\ x < pow2 (mag x + 1).
Proof.
  intros Hx. destruct x as [n d]. unfold mag; cbn [Qnum Qden].
  assert (Hn : (0 < n)%Z) by (unfold Qlt in Hx; simpl in Hx; lia).
  set (a := Z.log2 n). set (b := Z.log2 (Zpos d)).
  destruct (Z.log2_spec n Hn) as [Ha1 Ha2]. destruct (Z.log2_spec (Zpos d) eq_refl) as [Hb1 Hb2].
  fold a in Ha1, Ha2. fold b in Hb1, Hb2.
  assert (Ha : (0 <= a)%Z) by apply Z.log2_nonneg.
  assert (Hb : (0 <= b)%Z) by apply Z.log2_nonneg.
  rewrite Z.pow_succ_r in Ha2, Hb2 by assumption.
  assert (Hlo : pow2 (a - (b + 1)) <= n # d).
  { apply pow2_le_Qmake; try lia. rewrite Z.pow_add_r by lia. simpl. nia. }
  assert (Hhi : (n # d) < pow2 ((a + 1) - b)).
  { apply Qmake_lt_pow2; try lia. rewrite Z.pow_add_r by lia. simpl. nia. }
  destruct (Qlt_le_dec (n # d) (pow2 (a - b))) as [Hlt | Hge].
  - replace (a - b - 1)%Z with (a - (b + 1))%Z by lia.
    replace (a - (b + 1) + 1)%Z with (a - b)%Z by lia. split; assumption.
  - replace (a - b + 1)%Z with ((a + 1) - b)%Z by lia. split; assumption.
Qed.

Lemma mag_unique (x : Q) (k : Z) : pow2 k <= x -> x < pow2 (k + 1) -> mag x = k.
Proof.
  intros Hlo Hhi.
  assert (Hx : 0 < x) by (apply Qlt_le_trans with (pow2 k); auto with js).
  destruct (mag_spec x Hx) as [Hm1 Hm2].
  destruct (Z.lt_trichotomy (mag x) k) as [Hlt | [Heq | Hgt]]; [| exact Heq |].
  - assert (pow2 (mag x + 1) <= pow2 k) by (apply pow2_le_mono; lia). lra.
  - assert (pow2 (k + 1) <= pow2 (mag x)) by (apply pow2_le_mono; lia). lra.
Qed.

Lemma mag_mono (x y : Q) : 0 < x -> x <= y -> (mag x <= mag y)%Z.
Proof.
  intros Hx Hxy. destruct (mag_spec x Hx) as [Hx1 _].
  destruct (mag_spec y ltac:(lra)) as [_ Hy2].
  destruct (Z.le_gt_cases (mag x) (mag y)) as [H | H]; [exact H |].
  assert (pow2 (mag y + 1) <= pow2 (mag x)) by (apply pow2_le_mono; lia). lra.
Qed.

Lemma mag_compat (x y : Q) : 0 < x -> x == y -> mag x = mag y.
Proof.
  intros Hx Hxy. destruct (mag_spec x Hx) as [H1 H2].
  symmetry. apply mag_unique; rewrite <- Hxy; assumption.
Qed.

(** ** Rounding a rational to an integer, half to even *)

(** The cases of [rne] on the fractional part of its argument. *)
Ltac rne_cases q :=
  unfold rne;
  pose proof (Qfloor_le q); pose proof (Qlt_floor q);
  destruct (Qcompare_spec (q - inject_Z (Qfloor q)) (1 # 2)).

Lemma rne_near (q : Q) : inject_Z (rne q) - (1 # 2) <= q /\ q <= inject_Z (rne q) + (1 # 2).
Proof.
  rne_cases q; [destruct (Z.even (Qfloor q)) |..];
    rewrite ?inject_Z_plus in *; change (inject_Z 1) with 1 in *; split; lra.
Qed.

Lemma rne_Z (z : Z) : rne (inject_Z z) = z.
Proof.
  unfold rne. rewrite Qfloor_Z.
  replace (inject_Z z - inject_Z z ?= 1 # 2) with Lt by (symmetry; apply (proj1 (Qlt_alt _ _)); lra).
  reflexivity.
Qed.

Lemma rne_mono (p q : Q) : p <= q -> (rne p <= rne q)%Z.
Proof.
  intros Hpq. pose proof (Qfloor_resp_le p q Hpq) as Hf.
  destruct (Z.le_gt_cases (Qfloor q) (Qfloor p)) as [He | Hlt].
  - assert (Hfe : Qfloor q = Qfloor p) by lia.
    rne_cases p; rne_cases q; rewrite Hfe in *;
      destruct (Z.even (Qfloor p)); try lia; lra.
  - assert (rne p <= Qfloor p + 1 /\ Qfloor q <= rne q)%Z as [H1 H2]
      by (split; unfold rne; destruct (_ ?= _); try destruct (Z.even _); lia).
    lia.
Qed.

Lemma rne_nonneg (q : Q) : 0 <= q -> (0 <= rne q)%Z.
Proof. intros H. rewrite <- (rne_Z 0). apply rne_mono. exact H. Qed.

Lemma rne_compat (p q : Q) : p == q -> rne p = rne q.
Proof. intros H. apply Z.le_antisymm; apply rne_mono; rewrite H; apply Qle_refl. Qed.

(** ** Rounding a positive rational to the nearest double *)

Section RoundPos.
Variable x : Q.
Hypothesis Hx : 0 < x.

Let e := fexp x.
Let t := x * pow2 (- e).

Lemma round_pos_eq : round_pos x == inject_Z (rne t) * pow2 e.
Proof. unfold round_pos. apply Qred_correct. Qed.

Lemma scaled_back : t * pow2 e == x.
Proof.
  unfold t. rewrite <- Qmult_assoc, <- pow2_plus.
  replace (- e + e)%Z with 0%Z by lia. unfold pow2; simpl. ring.
Qed.

Lemma fexp_ge_mag : (mag x - 52 <= e)%Z /\ (-1074 <= e)%Z.
Proof. unfold e, fexp. lia. Qed.

(** The scaled value has at most 53 bits before the point ... *)
Lemma scaled_lt : t < inject_Z (2 ^ 53).
Proof.
  destruct (mag_spec x Hx) as [_ H2]. destruct fexp_ge_mag as [He _].
  rewrite <- pow2_Z by lia. unfold t.
  apply Qlt_le_trans with (pow2 (mag x + 1) * pow2 (- e)).
  - apply Qmult_lt_mono_pos_r; auto with js.
  - rewrite <- pow2_plus. apply pow2_le_mono. lia.
Qed.

(** ... and exactly 53 when [x] is a normal number. *)
Lemma scaled_ge : e = (mag x - 52)%Z -> inject_Z (2 ^ 52) <= t.
Proof.
  intros He. destruct (mag_spec x Hx) as [H1 _].
  rewrite <- pow2_Z by lia. unfold t.
  apply Qle_trans with (pow2 (mag x) * pow2 (- e)).
  - rewrite <- pow2_plus. apply pow2_le_mono. lia.
  - apply Qmult_le_mono_pos_r; auto with js.
Qed.

Lemma rne_scaled_le : (0 <= rne t <= 2 ^ 53)%Z.
Proof.
  split.
  - apply rne_nonneg. unfold t. apply Qlt_le_weak, Qmult_lt_0_compat; auto with js.
  - rewrite <- (rne_Z (2 ^ 53)). apply rne_mono, Qlt_le_weak, scaled_lt.
Qed.

(** The absolute error is at most half a unit in the last place. *)
Lemma round_pos_err : x - pow2 (e - 1) <= round_pos x /\ round_pos x <= x + pow2 (e - 1).
Proof.
  rewrite round_pos_eq, <- scaled_back.
  assert (Hh : pow2 (e - 1) == pow2 e * (1 # 2)).
  { unfold Z.sub. rewrite pow2_plus. reflexivity. }
  rewrite Hh. destruct (rne_near t) as [H1 H2]. pose proof (pow2_pos e).
  split; nra.
Qed.

(** Half an ulp is within the relative error [2^-53] or the absolute
    error [2^-1075] of gradual underflow. *)
Lemma half_ulp_le : pow2 (e - 1) <= x * pow2 (-53) + pow2 (-1075).
Proof.
  pose proof (pow2_pos (-1075)). pose proof (pow2_pos (-53)).
  unfold e, fexp. destruct (Z.max_spec (mag x - 52) (-1074)) as [[_ Hm] | [_ Hm]]; rewrite Hm.
  - replace (-1074 - 1)%Z with (-1075)%Z by lia.
    assert (0 <= x * pow2 (-53)) by (apply Qlt_le_weak, Qmult_lt_0_compat; assumption). lra.
  - destruct (mag_spec x Hx) as [H1 _].
    replace (mag x - 52 - 1)%Z with (mag x + -53)%Z by lia. rewrite pow2_plus.
    assert (pow2 (mag x) * pow2 (-53) <= x * pow2 (-53)) by (apply Qmult_le_mono_pos_r; assumption).
    lra.
Qed.

End RoundPos.

Lemma fexp_mono (x y : Q) : 0 < x -> x <= y -> (fexp x <= fexp y)%Z.
Proof. intros Hx Hxy. pose proof (mag_mono x y Hx Hxy). unfold fexp. lia. Qed.

Lemma round_pos_mono (x y : Q) : 0 < x -> x <= y -> round_pos x <= round_pos y.
Proof.
  intros Hx Hxy. assert (Hy : 0 < y) by lra.
  rewrite (round_pos_eq x), (round_pos_eq y).
  pose proof (fexp_mono x y Hx Hxy) as Hf.
  destruct (Z.eq_dec (fexp x) (fexp y)) as [He | Hne].
  - rewrite He. apply Qmult_le_mono_pos_r; [apply pow2_pos |].
    rewrite <- inject_Z_le. apply rne_mono, Qmult_le_mono_pos_r; auto with js.
  - (* [y] lies in a higher binade: [round x <= 2^(fexp x + 53) <= round y] *)
    assert (Hn : fexp y = (mag y - 52)%Z) by (unfold fexp in *; lia).
    pose proof (rne_scaled_le x Hx) as [_ Hmx].
    assert (Hmy : (2 ^ 52 <= rne (y * pow2 (- fexp y)))%Z).
    { rewrite <- (rne_Z (2 ^ 52)). apply rne_mono, scaled_ge; assumption. }
    apply Qle_trans with (inject_Z (2 ^ 53) * pow2 (fexp x)).
    + apply Qmult_le_mono_pos_r; [apply pow2_pos | rewrite <- inject_Z_le; exact Hmx].
    + apply Qle_trans with (inject_Z (2 ^ 52) * pow2 (fexp y)).
      * rewrite <- !pow2_Z by lia. rewrite <- !pow2_plus. apply pow2_le_mono. lia.
      * apply Qmult_le_mono_pos_r; [apply pow2_pos | rewrite <- inject_Z_le; exact Hmy].
Qed.

Lemma round_pos_nonneg (x : Q) : 0 < x -> 0 <= round_pos x.
Proof.
  intros Hx. rewrite (round_pos_eq x). destruct (rne_scaled_le x Hx) as [H _].
  apply Qmult_le_0_compat; [rewrite <- (inject_Z_le 0); exact H | apply Qlt_le_weak, pow2_pos].
Qed.

Lemma round_pos_compat (x y : Q) : 0 < x -> x == y -> round_pos x = round_pos y.
Proof.
  intros Hx Hxy. unfold round_pos, fexp. rewrite (mag_compat x y Hx Hxy).
  rewrite (rne_compat (x * _) (y * _)) by (rewrite Hxy; reflexivity). reflexivity.
Qed.

(** ** Doubles

    A finite double is [m * 2^e] with a 53-bit significand [m] and
    [e >= -1074]; the bound on the largest exponent is kept apart, in
    [rnd]'s overflow test. *)
Definition representable (q : Q) : Prop :=
  exists m e, q == inject_Z m * pow2 e /\ (Z.abs m < 2 ^ 53)%Z /\ (-1074 <= e)%Z.

#[export] Instance representable_Proper : Proper (Qeq ==> iff) representable.
Proof.
  intros p q Hpq. unfold representable.
  split; intros (m & e & H & Hm & He); exists m, e; (split; [| split; assumption]); rewrite <- H.
  - symmetry; exact Hpq.
  - exact Hpq.
Qed.

(** A positive double [m * 2^e] has its last bit at or above [fexp]. *)
Lemma fexp_le_exp (q : Q) (m e : Z) :
  0 < q -> q == inject_Z m * pow2 e -> (Z.abs m < 2 ^ 53)%Z -> (-1074 <= e)%Z -> (fexp q <= e)%Z.
Proof.
  intros Hq Hqe Hm He. destruct (mag_spec q Hq) as [H1 _].
  assert (Hlt : q < pow2 (53 + e)).
  { rewrite Hqe, pow2_plus, (pow2_Z 53) by lia. apply Qmult_lt_mono_pos_r; [apply pow2_pos |].
    rewrite <- inject_Z_lt. lia. }
  assert (Hmag : (mag q < 53 + e)%Z).
  { destruct (Z.lt_ge_cases (mag q) (53 + e)) as [H | H]; [exact H | exfalso].
    pose proof (pow2_le_mono _ _ H). lra. }
  unfold fexp. lia.
Qed.

Lemma representable_pow2_Z (k : Z) : (0 <= k)%Z -> representable (inject_Z (2 ^ k)).
Proof.
  intros Hk. exists 1%Z, k. split; [rewrite pow2_Z by exact Hk; ring | split; [reflexivity | lia]].
Qed.

(** Rounding a double gives it back. *)
Lemma round_pos_exact (q : Q) : 0 < q -> representable q -> round_pos q == q.
Proof.
  intros Hq (m & e & Hqe & Hm & He).
  pose proof (fexp_le_exp q m e Hq Hqe Hm He) as Hf.
  set (f := fexp q) in *.
  assert (Ht : q * pow2 (- f) == inject_Z (m * 2 ^ (e - f))).
  { rewrite Hqe, inject_Z_mult, <- (pow2_Z (e - f)) by lia. rewrite <- Qmult_assoc, <- pow2_plus.
    replace (e + - f)%Z with (e - f)%Z by lia. reflexivity. }
  rewrite (round_pos_eq q). fold f. rewrite (rne_compat _ _ Ht), rne_Z.
  rewrite inject_Z_mult, <- (pow2_Z (e - f)) by lia. rewrite <- Qmult_assoc, <- pow2_plus, Hqe.
  replace (e - f + f)%Z with e by lia. reflexivity.
Qed.

(** Every rounded value is a double. *)
Lemma round_pos_representable (x : Q) : 0 < x -> representable (round_pos x).
Proof.
  intros Hx. pose proof (rne_scaled_le x Hx) as Hm. pose proof (fexp_ge_mag x) as [_ He].
  rewrite (round_pos_eq x).
  destruct (Z.eq_dec (rne (x * pow2 (- fexp x))) (2 ^ 53)) as [Heq | Hne].
  - exists (2 ^ 52)%Z, (fexp x + 1)%Z. split; [| split; [reflexivity | lia]].
    rewrite Heq, <- (pow2_Z 53), <- (pow2_Z 52) by lia. rewrite <- !pow2_plus.
    replace (52 + (fexp x + 1))%Z with (53 + fexp x)%Z by lia. reflexivity.
  - exists (rne (x * pow2 (- fexp x))), (fexp x). split; [reflexivity | split; lia].
Qed.

(** ** Rounding of signed values *)

Ltac round_cases x := unfold round; destruct (Qcompare_spec x 0).

Lemma representable_opp (q : Q) : representable q -> representable (- q).
Proof.
  intros (m & e & H & Hm & He). exists (- m)%Z, e.
  split; [rewrite H, inject_Z_opp; ring | split; lia].
Qed.

Lemma representable_0 : representable 0.
Proof. exists 0%Z, 0%Z. split; [reflexivity | split; [reflexivity | lia]]. Qed.

#[export] Instance round_Proper : Proper (Qeq ==> eq) round.
Proof.
  intros x y Hxy. round_cases x; destruct (Qcompare_spec y 0); try lra; try reflexivity.
  - f_equal. apply round_pos_compat; [lra | rewrite Hxy; reflexivity].
  - apply round_pos_compat; assumption.
Qed.

Lemma round_0 : round 0 = 0.
Proof. reflexivity. Qed.

Lemma round_mono (x y : Q) : x <= y -> round x <= round y.
Proof.
  intros Hxy. pose proof (round_pos_nonneg x). pose proof (round_pos_nonneg (- x)).
  pose proof (round_pos_nonneg y). pose proof (round_pos_nonneg (- y)).
  round_cases x; round_cases y; try lra.
  - assert (round_pos (- y) <= round_pos (- x)) by (apply round_pos_mono; lra). lra.
  - apply round_pos_mono; lra.
Qed.

Lemma round_representable (x : Q) : representable (round x).
Proof.
  round_cases x.
  - exact representable_0.
  - apply representable_opp, round_pos_representable. lra.
  - apply round_pos_representable. exact H.
Qed.

Lemma round_exact (q : Q) : representable q -> round q == q.
Proof.
  intros Hr. round_cases q.
  - symmetry. exact H.
  - rewrite round_pos_exact; [ring | lra | apply representable_opp in Hr; exact Hr].
  - apply round_pos_exact; assumption.
Qed.

(** The error bound of binary64 rounding: relative error [2^-53] plus the
    absolute error [2^-1075] of gradual underflow. *)
Lemma round_err (x : Q) :
  Qabs (round x - x) <= Qabs x * pow2 (-53) + pow2 (-1075).
Proof.
  pose proof (pow2_pos (-1075)). pose proof (pow2_pos (-53)).
  apply Qabs_Qle_condition. round_cases x.
  - rewrite H1. rewrite Qabs_pos by lra. split; nra.
  - assert (Hx : 0 < - x) by lra.
    destruct (round_pos_err (- x)). pose proof (half_ulp_le (- x) Hx).
    rewrite Qabs_neg by lra. split; lra.
  - destruct (round_pos_err x). pose proof (half_ulp_le x H1).
    rewrite Qabs_pos by lra. split; lra.
Qed.

(** ** Operations on JavaScript numbers *)

Definition inf_of (positive : bool) : num := if positive then PInf else NInf.

Definition opp (x : num) : num :=
  match x with
  | Fin a => Fin (- a)
  | PInf => NInf
  | NInf => PInf
  | NaN => NaN
  end.

Definition add (x y : num) : num :=
  match x, y with
  | NaN, _ | _, NaN => NaN
  | PInf, NInf | NInf, PInf => NaN
  | PInf, _ | _, PInf => PInf
  | NInf, _ | _, NInf => NInf
  | Fin a, Fin b => rnd (a + b)
  end.

Definition sub (x y : num) : num := add x (opp y).

Definition mul (x y : num) : num :=
  match x, y with
  | NaN, _ | _, NaN => NaN
  | Fin a, Fin b => rnd (a * b)
  | Fin a, PInf | PInf, Fin a => if Qeq_bool a 0 then NaN else inf_of (negb (Qle_bool a 0))
  | Fin a, NInf | NInf, Fin a => if Qeq_bool a 0 then NaN else inf_of (Qle_bool a 0)
  | PInf, PInf | NInf, NInf => PInf
  | PInf, NInf | NInf, PInf => NInf
  end.

(** Division; a zero divisor is [+0], the only zero of this model. *)
Definition div (x y : num) : num :=
  match x, y with
  | NaN, _ | _, NaN => NaN
  | Fin a, Fin b =>
      if Qeq_bool b 0 then (if Qeq_bool a 0 then NaN else inf_of (negb (Qle_bool a 0)))
      else rnd (a / b)
  | Fin _, PInf | Fin _, NInf => Fin 0
  | PInf, Fin b => inf_of (Qle_bool 0 b)
  | NInf, Fin b => inf_of (negb (Qle_bool 0 b))
  | _, _ => NaN
  end.

(** The relational operator [x >= y]: false as soon as one side is NaN. *)
Definition ge (x y : num) : bool :=
  match x, y with
  | NaN, _ | _, NaN => false
  | _, NInf => true
  | NInf, _ => false
  | PInf, _ => true
  | Fin _, PInf => false
  | Fin a, Fin b => Qle_bool b a
  end.

Definition of_Z (z : Z) : num := Fin (inject_Z z).

Declare Scope num_scope.
Delimit Scope num_scope with num.
Notation "x .+. y" := (add x y) (at level 50, left associativity) : num_scope.
Notation "x .-. y" := (sub x y) (at level 50, left associativity) : num_scope.
Notation "x .*. y" := (mul x y) (at level 40, left associativity) : num_scope.
Notation "x ./. y" := (div x y) (at level 40, left associativity) : num_scope.
Notation "x .>=. y" := (ge x y) (at level 70, no associativity) : num_scope.

Lemma ge_of_Z (a b : Z) : (of_Z a .>=. of_Z b)%num = (b <=? a)%Z.
Proof. unfold ge, of_Z, Qle_bool, inject_Z; simpl. rewrite !Z.mul_1_r. reflexivity. Qed.

(** Finite operands whose exact result is in range give a finite double. *)
Lemma rnd_fin (x : Q) : - overflow_bound < round x < overflow_bound -> rnd x = Fin (round x).
Proof.
  intros [H1 H2]. unfold rnd.
  replace (Qle_bool overflow_bound (round x)) with false
    by (symmetry; apply Bool.not_true_iff_false; rewrite Qle_bool_iff; lra).
  replace (Qle_bool (round x) (- overflow_bound)) with false
    by (symmetry; apply Bool.not_true_iff_false; rewrite Qle_bool_iff; lra).
  reflexivity.
Qed.

Lemma div_fin (a b : Q) : ~ b == 0 -> (Fin a ./. Fin b)%num = rnd (a / b).
Proof.
  intros Hb. unfold div. destruct (Qeq_bool b 0) eqn:E; [| reflexivity].
  apply Qeq_bool_iff in E. contradiction.
Qed.

Lemma mul_fin (a b : Q) : (Fin a .*. Fin b)%num = rnd (a * b).
Proof. reflexivity. Qed.

Lemma sub_fin (a b : Q) : (Fin a .-. Fin b)%num = rnd (a + - b).
Proof. reflexivity. Qed.

(** A well-formed number: a finite double below the overflow bound, an
    infinity or NaN. *)
Definition valid (x : num) : Prop :=
  match x with
  | Fin q => representable q /\ - overflow_bound < q < overflow_bound
  | _ => True
  end.

(** Equality of numbers up to the representation of rationals. *)
Definition num_eq (x y : num) : Prop :=
  match x, y with
  | Fin a, Fin b => a == b
  | PInf, PInf | NInf, NInf | NaN, NaN => True
  | _, _ => False
  end.

#[export] Instance num_eq_Equivalence : Equivalence num_eq.
Proof.
  split.
  - intros [a| | |]; simpl; reflexivity.
  - intros [a| | |] [b| | |]; simpl; tauto || (intros; symmetry; assumption).
  - intros [a| | |] [b| | |] [c| | |]; simpl; try tauto. intros H1 H2. rewrite H1. exact H2.
Qed.

#[export] Instance rnd_Proper : Proper (Qeq ==> eq) rnd.
Proof. intros x y Hxy. unfold rnd. rewrite (round_Proper x y Hxy). reflexivity. Qed.

Lemma rnd_valid (x : Q) : valid (rnd x).
Proof.
  unfold rnd. destruct (Qle_bool overflow_bound (round x)) eqn:E1; [exact I |].
  destruct (Qle_bool (round x) (- overflow_bound)) eqn:E2; [exact I |].
  qbool. simpl. split; [apply round_representable | split; assumption].
Qed.

(** Rounding a valid double is the identity. *)
Lemma rnd_exact (q : Q) : valid (Fin q) -> num_eq (rnd q) (Fin q).
Proof.
  intros [Hr [Hlo Hhi]]. pose proof (round_exact q Hr) as He. unfold rnd.
  destruct (Qle_bool overflow_bound (round q)) eqn:E1; qbool; [lra |].
  destruct (Qle_bool (round q) (- overflow_bound)) eqn:E2; qbool; [lra |].
  exact He.
Qed.

(** Extended order on numbers; NaN is below and above nothing. *)
Definition le (x y : num) : Prop := ge y x = true.

Lemma rnd_mono (a b : Q) : a <= b -> le (rnd a) (rnd b).
Proof.
  intros Hab. pose proof (round_mono a b Hab). unfold le, rnd.
  destruct (Qle_bool overflow_bound (round b)) eqn:E1;
  destruct (Qle_bool (round b) (- overflow_bound)) eqn:E2;
  destruct (Qle_bool overflow_bound (round a)) eqn:E3;
  destruct (Qle_bool (round a) (- overflow_bound)) eqn:E4;
  simpl; qbool; try reflexivity; try lra; apply Qle_bool_iff; assumption.
Qed.
