(* ===== verification/JsNumber.v ===== *)
(** * Conversions of JavaScript numbers to strings

    [script.js] turns numbers into text in two ways: [x.toFixed(1)]
    (ECMA-262, Number.prototype.toFixed) and the implicit conversion of
    [textContent = x] and [x + '%'] (ECMA-262, Number::toString, radix
    10).  Both are language semantics, not code of the repository; they
    are modelled here from the standard, on the exact value of the double. *)

From Stdlib Require Import ZArith QArith Qround Qpower Qabs Lqa Lia String Ascii.
From Stdlib Require Import DecimalString DecimalN.
From S2P Require Import Prelude Binary64.

Local Open Scope Q_scope.
Local Open Scope string_scope.

(** ** Decimal digits of a non-negative integer *)

Definition dec (z : Z) : string := NilEmpty.string_of_uint (N.to_uint (Z.to_N z)).

Fixpoint zeros (n : nat) : string :=
  match n with
  | O => ""
  | S n' => "0" ++ zeros n'
  end.

Definition pow10 (k : Z) : Q := Qpower (10 # 1) k.

(** Number of decimal digits of a positive integer. *)
Fixpoint digits_fuel (fuel : nat) (z : Z) : Z :=
  match fuel with
  | O => 1
  | S f => if (z <? 10)%Z then 1 else (1 + digits_fuel f (z / 10))%Z
  end.

Definition digits (z : Z) : Z := digits_fuel (Pos.size_nat (Z.to_pos z)) z.

(** [mag10 a] is the [n] with [10^(n-1) <= a < 10^n], for [a > 0]. *)
Definition mag10 (a : Q) : Z :=
  let k0 := (digits (Qnum a) - digits (Zpos (Qden a)))%Z in
  if Qlt_le_dec a (pow10 k0) then k0 else (k0 + 1)%Z.

(** ** Number::toString

    Step 5 of the algorithm: [k] as small as possible such that the
    double nearest to [s * 10^(n-k)] is the argument, [10^(k-1) <= s <
    10^k]; among two candidates of that length the closer one, then the
    even one.  For a given [k] only the two neighbours of [a / 10^(n-k)]
    can round to [a] (rounding is monotone), and 17 digits always
    suffice for a double, which bounds the search. *)

Definition roundtrips (a : Q) (s n k : Z) : bool :=
  Qeq_bool (round (inject_Z s * pow10 (n - k))) a.

Definition pick_closer (a : Q) (lo n k : Z) : Z :=
  let sc := pow10 (n - k) in
  match Qcompare (a - inject_Z lo * sc) (inject_Z (lo + 1) * sc - a) with
  | Lt => lo
  | Gt => (lo + 1)%Z
  | Eq => if Z.even lo then lo else (lo + 1)%Z
  end.

Fixpoint shortest (a : Q) (n k : Z) (fuel : nat) : Z * Z :=
  let lo := Qfloor (a / pow10 (n - k)) in
  match fuel with
  | O => (lo, k)
  | S f =>
      let vlo := roundtrips a lo n k in
      let vhi := roundtrips a (lo + 1) n k in
      if vlo && vhi then (pick_closer a lo n k, k)
      else if vlo then (lo, k)
      else if vhi then ((lo + 1)%Z, k)
      else shortest a n (k + 1) f
  end.

(** The digits [s], their number [k] and the decimal exponent [n]; a
    candidate [s = 10^k] is renormalised to [10^(k-1)] and [n + 1]. *)
Definition decimal_repr (a : Q) : Z * Z * Z :=
  let n := mag10 a in
  let (s, k) := shortest a n 1 17 in
  if (s =? 10 ^ k)%Z then (10 ^ (k - 1), k, n + 1)%Z else (s, k, n).

Definition exponent_part (e : Z) : string :=
  "e" ++ (if (0 <=? e)%Z then "+" else "-") ++ dec (Z.abs e).

(** Steps 6 to 12: fixed or exponential notation. *)
Definition format_decimal (s k n : Z) : string :=
  let ds := dec s in
  if ((k <=? n) && (n <=? 21))%Z then ds ++ zeros (Z.to_nat (n - k))
  else if ((0 <? n) && (n <=? 21))%Z then
    substring 0 (Z.to_nat n) ds ++ "." ++ substring (Z.to_nat n) (Z.to_nat (k - n)) ds
  else if ((-6 <? n) && (n <=? 0))%Z then "0." ++ zeros (Z.to_nat (- n)) ++ ds
  else if (k =? 1)%Z then ds ++ exponent_part (n - 1)
  else substring 0 1 ds ++ "." ++ substring 1 (Z.to_nat (k - 1)) ds ++ exponent_part (n - 1).

Definition toString_pos (a : Q) : string :=
  let '(s, k, n) := decimal_repr a in format_decimal s k n.

Definition toString (x : num) : string :=
  match x with
  | NaN => "NaN"
  | PInf => "Infinity"
  | NInf => "-Infinity"
  | Fin q =>
      match Qcompare q 0 with
      | Eq => "0"
      | Lt => "-" ++ toString_pos (- q)
      | Gt => toString_pos q
      end
  end.

(** ** Number.prototype.toFixed(1)

    [n] is the integer nearest to [10 * x], the larger one on a tie; the
    digit string of [n], padded to two digits, is split before its last
    digit.  Splitting the digits of [n] there is [n / 10] and [n mod 10]. *)
Definition toFixed1 (x : num) : string :=
  match x with
  | Fin q =>
      let sign := if Qle_bool 0 q then "" else "-" in
      let a := Qabs q in
      if Qle_bool (pow10 21) a then sign ++ toString (Fin a)
      else
        let n := Qfloor (a * 10 + (1 # 2)) in
        sign ++ dec (n / 10) ++ "." ++ dec (n mod 10)
  | _ => toString x
  end.

(** ** Lemmas *)

Lemma Qfloor_unique (x : Q) (z : Z) : inject_Z z <= x -> x < inject_Z (z + 1) -> Qfloor x = z.
Proof.
  intros H1 H2. pose proof (Qfloor_le x). pose proof (Qlt_floor x).
  assert (H3 : inject_Z (Qfloor x) < inject_Z (z + 1)) by lra.
  assert (H4 : inject_Z z < inject_Z (Qfloor x + 1)) by lra.
  apply (proj2 (inject_Z_lt _ _)) in H3. apply (proj2 (inject_Z_lt _ _)) in H4. lia.
Qed.

Lemma Qabs_nonneg_eq (q : Q) : 0 <= q -> Qabs q = q.
Proof.
  destruct q as [n d]. unfold Qle; simpl. intros H. rewrite Z.abs_eq by lia. reflexivity.
Qed.

(** [toFixed(1)] of a non-negative number below [10^21]. *)
Lemma toFixed1_nonneg (q : Q) : 0 <= q -> q < pow10 21 ->
  toFixed1 (Fin q) =
    dec (Qfloor (q * 10 + (1 # 2)) / 10) ++ "." ++ dec (Qfloor (q * 10 + (1 # 2)) mod 10).
Proof.
  intros H0 H21. unfold toFixed1. rewrite Qabs_nonneg_eq by exact H0.
  replace (Qle_bool 0 q) with true by (symmetry; apply Qle_bool_iff; exact H0).
  replace (Qle_bool (pow10 21) q) with false
    by (symmetry; apply Bool.not_true_iff_false; rewrite Qle_bool_iff; lra).
  reflexivity.
Qed.

(** Reading back a string of decimal digits (as [parseInt] does on one). *)
Definition parse_digits (s : string) : option Z :=
  option_map (fun u => Z.of_N (N.of_uint u)) (NilEmpty.uint_of_string s).

Lemma parse_dec (z : Z) : (0 <= z)%Z -> parse_digits (dec z) = Some z.
Proof.
  intros Hz. unfold parse_digits, dec. rewrite NilEmpty.usu. simpl.
  rewrite DecimalN.Unsigned.of_to, Z2N.id by exact Hz. reflexivity.
Qed.
