(* ===== verification/FormatNumber.v ===== *)
(** * [formatNumber]: abbreviation of counts ([script.js], lines 114-121)

    [formatNumber(num)] renders a count as [x.xM] from one million, as
    [x.xK] from one thousand, and with [num.toString()] below.  The
    divisions and [toFixed(1)] run on doubles; the theorems show which
    digit string each integer count produces, the error against the exact
    quotient, and where double rounding decides a tie. *)

From Stdlib Require Import ZArith QArith Qround Qabs Lqa Lia String List.
From S2P Require Import Prelude Binary64 JsNumber.
Import ListNotations.
Local Open Scope string_scope.

Definition formatNumber (num : num) : string :=
  if (num .>=. of_Z 1000000)%num then toFixed1 (num ./. of_Z 1000000)%num ++ "M"
  else if (num .>=. of_Z 1000)%num then toFixed1 (num ./. of_Z 1000)%num ++ "K"
  else toString num.

(** ** Division of an integer count by a positive constant *)

Lemma round_le_2p53 (x : Q) : (x <= inject_Z (2 ^ 53))%Q -> (round x <= inject_Z (2 ^ 53))%Q.
Proof.
  intros H. rewrite <- (round_exact (inject_Z (2 ^ 53))).
  - apply round_mono. exact H.
  - exists (2 ^ 52)%Z, 1%Z. split; [reflexivity | split; [reflexivity | lia]].
Qed.

Lemma div_of_Z (n m : Z) : (0 <= n <= 2 ^ 53)%Z -> (0 < m)%Z ->
  (of_Z n ./. of_Z m)%num = Fin (round (inject_Z n / inject_Z m)).
Proof.
  intros Hn Hm. unfold div, of_Z.
  replace (Qeq_bool (inject_Z m) 0) with false
    by (symmetry; apply Bool.not_true_iff_false; rewrite Qeq_bool_iff;
        intros H; apply (proj1 (inject_Z_lt 0 m)) in Hm; change (inject_Z 0) with 0%Q in Hm; lra).
  assert (Hq : (0 <= inject_Z n / inject_Z m <= inject_Z (2 ^ 53))%Q).
  { assert (Hm' : (inject_Z 1 <= inject_Z m)%Q) by (rewrite <- inject_Z_le; lia).
    assert (Hn0 : (inject_Z 0 <= inject_Z n)%Q) by (rewrite <- inject_Z_le; lia).
    assert (Hn1 : (inject_Z n <= inject_Z (2 ^ 53))%Q) by (rewrite <- inject_Z_le; lia).
    change (inject_Z 1) with 1%Q in Hm'. change (inject_Z 0) with 0%Q in Hn0. split.
    - apply Qle_shift_div_l; lra.
    - apply Qle_shift_div_r; [lra|]. nra. }
  pose proof (round_le_2p53 _ (proj2 Hq)) as Hr.
  pose proof (round_mono 0 _ (proj1 Hq)) as Hr0. rewrite round_0 in Hr0.
  assert (Hb : (inject_Z (2 ^ 53) < overflow_bound)%Q)
    by (unfold overflow_bound; rewrite <- (pow2_Z 53) by lia; apply pow2_lt_mono; lia).
  pose proof (pow2_pos 1024). unfold rnd, overflow_bound in *.
  replace (Qle_bool (pow2 1024) _) with false
    by (symmetry; apply Bool.not_true_iff_false; rewrite Qle_bool_iff; lra).
  replace (Qle_bool _ (- pow2 1024)) with false
    by (symmetry; apply Bool.not_true_iff_false; rewrite Qle_bool_iff; lra).
  reflexivity.
Qed.

(** ** [toFixed(1)] of a rounded quotient

    For a count [n] divided by [10 * D], [toFixed(1)] prints an integer
    [q] of tenths.  When the rounding error of the division, scaled to
    tenths, is below [1 / D], [q] is within half a tenth of the exact
    quotient: [|D q - n| <= D / 2]. *)

Section Grid.
Variables n D : Z.
Hypothesis Hn : (0 <= n)%Z.
Hypothesis HD : (0 < D)%Z.
Hypothesis HDeven : Z.even D = true.

Let x : Q := inject_Z n / inject_Z (10 * D).
Let eta : Q := x * pow2 (-53) + pow2 (-1075).
Hypothesis Hsmall : (inject_Z D * (10 * eta) < 1)%Q.

Lemma grid_x_nonneg : (0 <= x)%Q.
Proof.
  unfold x. apply Qle_shift_div_l.
  - apply inject_Z_pos. lia.
  - rewrite Qmult_0_l. apply inject_Z_nonneg. exact Hn.
Qed.

Lemma grid_x_scaled : (inject_Z D * (10 * x) == inject_Z n)%Q.
Proof.
  unfold x. rewrite inject_Z_mult. field.
  pose proof (inject_Z_pos D HD) as HD0. intros HD1. rewrite HD1 in HD0. discriminate.
Qed.

Lemma grid_digit : (2 * Z.abs (D * Qfloor (round x * 10 + (1 # 2)) - n) <= D)%Z.
Proof.
  set (q := Qfloor (round x * 10 + (1 # 2))).
  pose proof (Qfloor_le (round x * 10 + (1 # 2))) as Hq1.
  pose proof (Qlt_floor (round x * 10 + (1 # 2))) as Hq2. fold q in Hq1, Hq2.
  rewrite inject_Z_plus in Hq2. change (inject_Z 1) with 1%Q in Hq2.
  pose proof (round_err x) as He. rewrite (Qabs_pos x grid_x_nonneg) in He.
  apply Qabs_Qle_condition in He. fold eta in He.
  assert (HDq : (0 < inject_Z D)%Q) by (apply inject_Z_pos; exact HD).
  pose proof grid_x_scaled as Hs.
  assert (Hlo : (inject_Z D * (inject_Z q - 10 * x) < inject_Z D * (1 # 2) + 1)%Q) by nra.
  assert (Hhi : (- (inject_Z D * (1 # 2)) - 1 < inject_Z D * (inject_Z q - 10 * x))%Q) by nra.
  assert (Hz : (inject_Z D * (inject_Z q - 10 * x) == inject_Z (D * q - n))%Q).
  { rewrite inject_Z_sub, inject_Z_mult, <- Hs. ring. }
  rewrite Hz in Hlo, Hhi.
  assert (Hlo' : (2 * (D * q - n) < D + 2)%Z).
  { apply (proj2 (inject_Z_lt _ _)). rewrite inject_Z_mult, inject_Z_plus.
    change (inject_Z 2) with 2%Q. lra. }
  assert (Hhi' : (- D - 2 < 2 * (D * q - n))%Z).
  { apply (proj2 (inject_Z_lt _ _)). rewrite inject_Z_mult, inject_Z_sub, inject_Z_opp.
    change (inject_Z 2) with 2%Q. lra. }
  apply Z.even_spec in HDeven. destruct HDeven as [k Hk]. lia.
Qed.

End Grid.

Lemma grid_small (n D N : Z) : (0 <= n <= N)%Z -> (0 < D)%Z ->
  (inject_Z D * (10 * (inject_Z N / inject_Z (10 * D) * pow2 (-53) + pow2 (-1075))) < 1)%Q ->
  (inject_Z D * (10 * (inject_Z n / inject_Z (10 * D) * pow2 (-53) + pow2 (-1075))) < 1)%Q.
Proof.
  intros Hn HD H. eapply Qle_lt_trans; [| exact H].
  assert (H10 : (0 < inject_Z (10 * D))%Q) by (apply inject_Z_pos; lia).
  assert (Hle : (inject_Z n / inject_Z (10 * D) <= inject_Z N / inject_Z (10 * D))%Q).
  { apply Qmult_le_mono_pos_r; [apply Qinv_lt_0_compat; exact H10 | rewrite <- inject_Z_le; lia]. }
  assert (Hp : (inject_Z n / inject_Z (10 * D) * pow2 (-53) <= inject_Z N / inject_Z (10 * D) * pow2 (-53))%Q)
    by (apply Qmult_le_mono_pos_r; [apply pow2_pos | exact Hle]).
  rewrite !(Qmult_comm (inject_Z D)). apply Qmult_le_mono_pos_r; [apply inject_Z_pos; exact HD | lra].
Qed.

(** [toFixed(1)] of [n / (10 D)]: the digits of some [q] within half a
    tenth of the exact quotient. *)
Lemma toFixed1_div (n D N : Z) : (0 <= n <= N)%Z -> (N <= 2 ^ 53)%Z -> (0 < D)%Z ->
  Z.even D = true ->
  (inject_Z D * (10 * (inject_Z N / inject_Z (10 * D) * pow2 (-53) + pow2 (-1075))) < 1)%Q ->
  exists q, toFixed1 (of_Z n ./. of_Z (10 * D))%num = dec (q / 10) ++ "." ++ dec (q mod 10)
            /\ (2 * Z.abs (D * q - n) <= D)%Z.
Proof.
  intros Hn HN HD Hev Hs. rewrite div_of_Z by lia.
  set (x := (inject_Z n / inject_Z (10 * D))%Q).
  assert (Hx : (0 <= round x <= inject_Z (2 ^ 53))%Q).
  { split.
    - rewrite <- round_0. apply round_mono. apply (grid_x_nonneg n D); lia.
    - apply round_le_2p53. unfold x. apply Qle_shift_div_r; [apply inject_Z_pos; lia |].
      rewrite <- inject_Z_mult, <- inject_Z_le. nia. }
  rewrite toFixed1_nonneg.
  - eexists. split; [reflexivity |].
    apply grid_digit; [lia | lia | exact Hev | apply (grid_small n D N); [lia | lia | exact Hs]].
  - apply Hx.
  - apply Qle_lt_trans with (inject_Z (2 ^ 53)); [apply Hx | vm_compute; reflexivity].
Qed.

(** Away from a tie, [q] is the exact quotient rounded to the nearest. *)
Lemma grid_exact (n D q : Z) : (0 < D)%Z -> Z.even D = true -> (2 * (n mod D) <> D)%Z ->
  (2 * Z.abs (D * q - n) <= D)%Z -> q = ((n + D / 2) / D)%Z.
Proof.
  intros HD Hev Htie Hq. apply Z.even_spec in Hev. destruct Hev as [k Hk]. subst D.
  replace (2 * k / 2)%Z with k by (rewrite Z.mul_comm, Z.div_mul; lia).
  assert (Hr : (n + k - 2 * k * q <> 2 * k)%Z).
  { intros Heq. apply Htie. rewrite <- (Z.mod_unique n (2 * k) q k); lia. }
  apply Z.div_unique with (n + k - 2 * k * q)%Z; lia.
Qed.

(** ** The three branches on integer counts *)

Lemma formatNumber_branch_M (n : Z) : (1000000 <= n)%Z ->
  formatNumber (of_Z n) = toFixed1 (of_Z n ./. of_Z 1000000)%num ++ "M".
Proof. intros H. unfold formatNumber. rewrite ge_of_Z. destruct (Z.leb_spec 1000000 n); [reflexivity | lia]. Qed.

Lemma formatNumber_branch_K (n : Z) : (1000 <= n < 1000000)%Z ->
  formatNumber (of_Z n) = toFixed1 (of_Z n ./. of_Z 1000)%num ++ "K".
Proof.
  intros H. unfold formatNumber. rewrite !ge_of_Z.
  destruct (Z.leb_spec 1000000 n); [lia |]. destruct (Z.leb_spec 1000 n); [reflexivity | lia].
Qed.

Lemma formatNumber_branch_small (n : Z) : (n < 1000)%Z -> formatNumber (of_Z n) = toString (of_Z n).
Proof.
  intros H. unfold formatNumber. rewrite !ge_of_Z.
  destruct (Z.leb_spec 1000000 n); [lia |]. destruct (Z.leb_spec 1000 n); [lia | reflexivity].
Qed.

(** The K branch prints the tenths of thousands that [toFixed(1)] finds. *)
Lemma thousands_tenths (n : Z) : (1000 <= n < 1000000)%Z ->
  exists q, formatNumber (of_Z n) = dec (q / 10) ++ "." ++ dec (q mod 10) ++ "K"
            /\ (2 * Z.abs (100 * q - n) <= 100)%Z.
Proof.
  intros Hn. rewrite formatNumber_branch_K by exact Hn.
  destruct (toFixed1_div n 100 999999) as (q & Hq & Hb);
    [lia | lia | lia | reflexivity | vm_compute; reflexivity |].
  exists q. change (of_Z 1000) with (of_Z (10 * 100)). rewrite Hq, !string_app_assoc.
  split; [reflexivity | exact Hb].
Qed.

Lemma millions_tenths (n : Z) : (1000000 <= n < 2 ^ 53)%Z ->
  exists q, formatNumber (of_Z n) = dec (q / 10) ++ "." ++ dec (q mod 10) ++ "M"
            /\ (2 * Z.abs (100000 * q - n) <= 100000)%Z.
Proof.
  intros Hn. rewrite formatNumber_branch_M by lia.
  destruct (toFixed1_div n 100000 (2 ^ 53 - 1)) as (q & Hq & Hb);
    [lia | lia | lia | reflexivity | vm_compute; reflexivity |].
  exists q. change (of_Z 1000000) with (of_Z (10 * 100000)). rewrite Hq, !string_app_assoc.
  split; [reflexivity | exact Hb].
Qed.

(** Below one thousand, every integer count is printed as its digits.
    Decided by evaluating [formatNumber] on each of the thousand counts. *)
Definition small_counts_ok : bool :=
  forallb (fun k => String.eqb (formatNumber (of_Z (Z.of_nat k))) (dec (Z.of_nat k))) (seq 0 1000).

Lemma small_counts_ok_true : small_counts_ok = true.
Proof. vm_compute. reflexivity. Qed.

(** ** Theorems of [formatNumber] *)

(** C7: A count from one thousand to below a million is printed as
    thousands with one decimal and a [K], within half a tenth of a
    thousand of the count; away from the exact ties (a remainder of 50
    modulo 100) the printed tenths are the count's, rounded to nearest. *)
Theorem formatNumber_thousands (n : Z) : (1000 <= n < 1000000)%Z ->
  (exists q, formatNumber (of_Z n) = dec (q / 10) ++ "." ++ dec (q mod 10) ++ "K"
             /\ (2 * Z.abs (100 * q - n) <= 100)%Z) /\
  ((n mod 100 <> 50)%Z ->
   formatNumber (of_Z n) = dec ((n + 50) / 100 / 10) ++ "." ++ dec ((n + 50) / 100 mod 10) ++ "K").
Proof.
  intros Hn. destruct (thousands_tenths n Hn) as (q & Hq & Hb). split; [exists q; auto |].
  intros Ht. rewrite Hq, (grid_exact n 100 q); [reflexivity | lia | reflexivity | lia | exact Hb].
Qed.

(** C8: From a million up to 2^53 (where every integer is a double), a
    count is printed as millions with one decimal and an [M], within half
    a tenth of a million; away from ties, rounded to nearest. *)
Theorem formatNumber_millions (n : Z) : (1000000 <= n < 2 ^ 53)%Z ->
  (exists q, formatNumber (of_Z n) = dec (q / 10) ++ "." ++ dec (q mod 10) ++ "M"
             /\ (2 * Z.abs (100000 * q - n) <= 100000)%Z) /\
  ((n mod 100000 <> 50000)%Z ->
   formatNumber (of_Z n) = dec ((n + 50000) / 100000 / 10) ++ "." ++ dec ((n + 50000) / 100000 mod 10) ++ "M").
Proof.
  intros Hn. destruct (millions_tenths n Hn) as (q & Hq & Hb). split; [exists q; auto |].
  intros Ht. rewrite Hq, (grid_exact n 100000 q); [reflexivity | lia | reflexivity | lia | exact Hb].
Qed.

(** C9: Below one thousand a count is printed as its decimal digits, and
    reading the digits back gives the count. *)
Theorem formatNumber_small (n : Z) : (0 <= n < 1000)%Z ->
  formatNumber (of_Z n) = dec n /\ parse_digits (formatNumber (of_Z n)) = Some n.
Proof.
  intros Hn. pose proof small_counts_ok_true as H. unfold small_counts_ok in H.
  rewrite forallb_forall in H. specialize (H (Z.to_nat n)).
  rewrite Z2Nat.id in H by lia. assert (Hf : formatNumber (of_Z n) = dec n) by (apply String.eqb_eq, H, in_seq; lia).
  split; [exact Hf | rewrite Hf; apply parse_dec; lia].
Qed.

(** C10: Every count from 999950 to 999999 is printed as [1000.0K]: the
    K branch rounds it up to a thousand thousands instead of switching
    to millions, which only start at one million. *)
Theorem formatNumber_top_thousands (n : Z) : (999950 <= n < 1000000)%Z ->
  formatNumber (of_Z n) = "1000.0K".
Proof.
  intros Hn. destruct (Z.eq_dec n 999950) as [-> | Hne]; [vm_compute; reflexivity |].
  destruct (thousands_tenths n ltac:(lia)) as (q & Hq & Hb).
  assert (Hm : (n mod 100 = n - 999900)%Z) by (symmetry; apply Z.mod_unique with 9999%Z; lia).
  rewrite Hq, (grid_exact n 100 q); [| lia | reflexivity | lia | exact Hb].
  change (100 / 2)%Z with 50%Z.
  replace ((n + 50) / 100)%Z with 10000%Z by (apply Z.div_unique with (n + 50 - 1000000)%Z; lia).
  reflexivity.
Qed.

Lemma formatNumber_thousands_witness :
  (1000 <= 15320 < 1000000)%Z /\ formatNumber (of_Z 15320) = "15.3K".
Proof.
  split; [lia |]. rewrite (proj2 (formatNumber_thousands 15320 ltac:(lia)) ltac:(discriminate)). reflexivity.
Defined.

Lemma formatNumber_millions_witness :
  (1000000 <= 2480000 < 2 ^ 53)%Z /\ formatNumber (of_Z 2480000) = "2.5M".
Proof.
  split; [lia |]. rewrite (proj2 (formatNumber_millions 2480000 ltac:(lia)) ltac:(discriminate)). reflexivity.
Defined.

Lemma formatNumber_small_witness : (0 <= 418 < 1000)%Z /\ formatNumber (of_Z 418) = "418".
Proof. split; [lia | exact (proj1 (formatNumber_small 418 ltac:(lia)))]. Defined.

Lemma formatNumber_top_thousands_witness :
  (999950 <= 999983 < 1000000)%Z /\ formatNumber (of_Z 999983) = "1000.0K".
Proof. split; [lia | apply formatNumber_top_thousands; lia]. Defined.
