(* ===== verification/TierClass.v ===== *)
(** * The tier badge's CSS class ([script.js], lines 66-68)

    [const tierClass = 'tier-' + score.tier.toLowerCase()
       .replace(/\+/g, '-plus').replace(' ', '-');]
    [scoreTier.className = `tier-badge ${tierClass}`;]

    The second [replace] has a string pattern and replaces only the first
    space.  The theorems characterise the class on every label, and show
    that a label of three words or more yields a class attribute whose
    tokens split the intended class name. *)

From Stdlib Require Import String Ascii List Lia.
From S2P Require Import Prelude JsString.
Import ListNotations.
Local Open Scope string_scope.

Definition tierClass (tier : string) : string :=
  "tier-" ++ replace_first_char " " "-" (replace_all_char "+" "-plus" (toLowerCase tier)).

Definition tierBadgeClassName (tier : string) : string := "tier-badge " ++ tierClass tier.

(** One word of a label as it appears in the class: lower-cased, with
    every [+] spelt [-plus]. *)
Definition normalize (w : string) : string := replace_all_char "+" "-plus" (toLowerCase w).

(** ** Lemmas on [normalize] *)

Lemma normalize_app (a b : string) : normalize (a ++ b) = normalize a ++ normalize b.
Proof. unfold normalize. rewrite toLowerCase_app, replace_all_char_app. reflexivity. Qed.

Lemma normalize_space (rest : string) : normalize (String " " rest) = String " " (normalize rest).
Proof. reflexivity. Qed.

Lemma normalize_no_space (w : string) : has_char " " w = false -> has_char " " (normalize w) = false.
Proof.
  intros H. unfold normalize. apply has_char_replace_all; [reflexivity |].
  rewrite has_char_toLowerCase_ws by reflexivity. exact H.
Qed.

Lemma normalize_no_ws (w : string) : no_ws w = true -> no_ws (normalize w) = true.
Proof.
  intros H. unfold normalize. apply no_ws_replace_all; [reflexivity |].
  rewrite no_ws_toLowerCase. exact H.
Qed.

Lemma normalize_nonempty (w : string) : w <> "" -> normalize w <> "".
Proof.
  intros H. unfold normalize. apply replace_all_char_nonempty; [discriminate |].
  apply toLowerCase_nonempty. exact H.
Qed.

Lemma no_ws_no_space (w : string) : no_ws w = true -> has_char " " w = false.
Proof.
  induction w as [|c w IH]; cbn [has_char no_ws]; [reflexivity |].
  intros H. apply Bool.andb_true_iff in H as [H1 H2]. rewrite IH by exact H2.
  destruct (Ascii.eqb_spec " " c) as [<- | _]; [discriminate | reflexivity].
Qed.

#[export] Hint Resolve normalize_no_space normalize_no_ws normalize_nonempty no_ws_no_space : js.

(** ** The class name of every label *)

Lemma tierClass_one_word (w : string) : has_char " " w = false ->
  tierClass w = "tier-" ++ normalize w.
Proof.
  intros H. unfold tierClass. fold (normalize w).
  rewrite replace_first_char_absent by auto with js. reflexivity.
Qed.

(** Only the first space becomes [-]; later spaces stay in the class. *)
Lemma tierClass_split (w rest : string) : has_char " " w = false ->
  tierClass (w ++ String " " rest) = "tier-" ++ normalize w ++ "-" ++ normalize rest.
Proof.
  intros H. unfold tierClass. fold (normalize (w ++ String " " rest)).
  rewrite normalize_app, normalize_space, replace_first_char_split by auto with js.
  reflexivity.
Qed.

(** C12: No class the code builds contains a [+]: every [+] of the
    label has become [-plus]. *)
Theorem tierClass_no_plus (tier : string) : has_char "+" (tierClass tier) = false.
Proof.
  unfold tierClass. rewrite has_char_app.
  rewrite has_char_replace_first; [reflexivity | reflexivity |].
  apply has_char_replace_all_self. reflexivity.
Qed.

(** C11: A one-word label gives [tier-] and the word lowercased with
    [+] spelled [-plus]; in a longer label the first space becomes [-]
    and the rest is normalised the same way, spaces included. *)
Theorem tierClass_words (w rest : string) : has_char " " w = false ->
  tierClass w = "tier-" ++ normalize w /\
  tierClass (w ++ String " " rest) = "tier-" ++ normalize w ++ "-" ++ normalize rest.
Proof. intros H. split; [apply tierClass_one_word | apply tierClass_split]; exact H. Qed.

(** ** Class tokens of the badge *)

Lemma tokens_badge (x : string) :
  class_tokens (tierBadgeClassName x) = "tier-badge" :: split_tokens "" (tierClass x).
Proof.
  unfold tierBadgeClassName, class_tokens.
  change ("tier-badge " ++ tierClass x) with ("tier-badge" ++ String " " (tierClass x)).
  rewrite split_tokens_sep by reflexivity. reflexivity.
Qed.

(** C13: A label of one word, or of two words, gives the badge exactly
    two classes: [tier-badge] and the tier's class. *)
Theorem tierBadge_short_labels (w1 w2 : string) : no_ws w1 = true -> no_ws w2 = true ->
  class_tokens (tierBadgeClassName w1) = ["tier-badge"; tierClass w1] /\
  class_tokens (tierBadgeClassName (w1 ++ String " " w2)) = ["tier-badge"; tierClass (w1 ++ String " " w2)].
Proof.
  intros H1 H2. split.
  - rewrite tokens_badge, tierClass_one_word by auto with js.
    rewrite split_tokens_word; [reflexivity |]. rewrite no_ws_app, normalize_no_ws by assumption. reflexivity.
  - rewrite tokens_badge, tierClass_split by auto with js.
    rewrite split_tokens_word; [reflexivity |].
    rewrite !no_ws_app, !normalize_no_ws by assumption. reflexivity.
Qed.

(** C14: A label of three words is split by the space the code leaves in:
    the badge gets the class [tier-w1-w2] and a stray class [w3], and no
    rule for [tier-w1-w2-w3] can match. *)
Theorem tierBadge_three_words (w1 w2 w3 : string) :
  no_ws w1 = true -> no_ws w2 = true -> no_ws w3 = true -> w3 <> "" ->
  class_tokens (tierBadgeClassName (w1 ++ String " " (w2 ++ String " " w3))) =
    ["tier-badge"; "tier-" ++ normalize w1 ++ "-" ++ normalize w2; normalize w3].
Proof.
  intros H1 H2 H3 H3ne. rewrite tokens_badge, tierClass_split by auto with js.
  rewrite normalize_app, normalize_space.
  replace ("tier-" ++ normalize w1 ++ "-" ++ normalize w2 ++ String " " (normalize w3))
    with (("tier-" ++ normalize w1 ++ "-" ++ normalize w2) ++ String " " (normalize w3))
    by (rewrite !string_app_assoc; reflexivity).
  rewrite split_tokens_sep by (rewrite ?no_ws_app, ?normalize_no_ws by assumption; reflexivity).
  rewrite split_tokens_word by auto with js.
  destruct (String.eqb_spec ("" ++ normalize w3) "") as [E | _];
    [exfalso; apply (normalize_nonempty w3 H3ne); exact E | reflexivity].
Qed.

Lemma tierClass_words_witness :
  has_char " " "Elite" = false /\ tierClass ("Elite" ++ String " " "Pro+") = "tier-elite-pro-plus".
Proof. split; [reflexivity | rewrite (proj2 (tierClass_words "Elite" "Pro+" eq_refl)); reflexivity]. Defined.

Lemma tierBadge_short_labels_witness :
  no_ws "Gold" = true /\ no_ws "Performer" = true /\
  class_tokens (tierBadgeClassName "Gold") = ["tier-badge"; "tier-gold"] /\
  class_tokens (tierBadgeClassName "Gold Performer") = ["tier-badge"; "tier-gold-performer"].
Proof.
  split; [reflexivity | split; [reflexivity |]].
  exact (tierBadge_short_labels "Gold" "Performer" eq_refl eq_refl).
Defined.

Lemma tierBadge_three_words_witness :
  no_ws "Elite" = true /\ no_ws "Pro" = true /\ no_ws "Max" = true /\ "Max" <> "" /\
  class_tokens (tierBadgeClassName "Elite Pro Max") = ["tier-badge"; "tier-elite-pro"; "max"].
Proof.
  split; [reflexivity | split; [reflexivity | split; [reflexivity | split; [discriminate |]]]].
  exact (tierBadge_three_words "Elite" "Pro" "Max" eq_refl eq_refl eq_refl ltac:(discriminate)).
Defined.
