(* ===== verification/Gauge.v ===== *)
(** * The score gauge ([script.js], lines 70-82)

    The gauge is an SVG circle of radius 90 whose stroke is dashed so that
    the visible arc is proportional to the score:
    [offset = circumference - (totalScore / 100) * circumference], and
    whose colour is chosen by five thresholds, high to low.  All
    arithmetic is binary64. *)

From Stdlib Require Import ZArith QArith Qround Qabs Lqa Lia String List.
From S2P Require Import Prelude Binary64 JsNumber.
Import ListNotations.
Local Open Scope string_scope.

(** [Math.PI]: the double nearest to pi, [884279719003555 / 2^48]. *)
Definition Math_PI : num := Fin (884279719003555 # 281474976710656).

(** [const circumference = 2 * Math.PI * 90;] *)
Definition circumference : num := (of_Z 2 .*. Math_PI .*. of_Z 90)%num.

(** [const offset = circumference - (totalScore / 100) * circumference;] *)
Definition gaugeOffset (totalScore : num) : num :=
  (circumference .-. (totalScore ./. of_Z 100) .*. circumference)%num.

(** The stroke colour, first matching threshold from the top. *)
Definition gaugeColor (totalScore : num) : string :=
  if (totalScore .>=. of_Z 80)%num then "#ffd700"
  else if (totalScore .>=. of_Z 70)%num then "#4CAF50"
  else if (totalScore .>=. of_Z 60)%num then "#2196F3"
  else if (totalScore .>=. of_Z 50)%num then "#9C27B0"
  else if (totalScore .>=. of_Z 40)%num then "#FF9800"
  else "#f44336".

(** ** The circumference as a rational *)

Definition circ_q : Q := round (round (2 * (884279719003555 # 281474976710656)) * 90).

Lemma circumference_eq : circumference = Fin circ_q.
Proof. vm_compute. reflexivity. Qed.

Lemma circ_q_bounds : 565 < circ_q < 566.
Proof. split; vm_compute; reflexivity. Qed.

Lemma circ_q_representable : representable circ_q.
Proof. apply round_representable. Qed.

Example circumference_text : toString circumference = "565.4866776461628".
Proof. vm_compute. reflexivity. Qed.

(** ** The offset of a score in [0, 100] *)

Lemma representable_1 : representable 1.
Proof. exists 1%Z, 0%Z. split; [reflexivity | split; [reflexivity | lia]]. Qed.

Lemma overflow_bound_gt (q : Q) : q <= 566 -> q < overflow_bound.
Proof. intros H. assert (566 < overflow_bound) by (vm_compute; reflexivity). lra. Qed.

Lemma rnd_fin_small (x : Q) : 0 <= round x <= 566 -> rnd x = Fin (round x).
Proof.
  intros [H1 H2]. apply rnd_fin. pose proof (overflow_bound_gt _ H2).
  assert (0 < overflow_bound) by (vm_compute; reflexivity). split; lra.
Qed.

(** [round] maps [0 <= x <= y] into [0 <= round x <= y] for a double [y]. *)
Lemma round_between (x y : Q) : representable y -> 0 <= x <= y -> 0 <= round x <= y.
Proof.
  intros Hy [H1 H2]. split.
  - rewrite <- round_0. apply round_mono. exact H1.
  - rewrite <- (round_exact y Hy). apply round_mono. exact H2.
Qed.

(** The offset computed on doubles, as a rational. *)
Definition offset_q (s : Q) : Q := round (circ_q + - round (round (s / 100) * circ_q)).

Section Offset.
Variable s : Q.
Hypothesis Hs : 0 <= s <= 100.

Lemma offset_a : 0 <= round (s / 100) <= 1.
Proof.
  apply round_between; [exact representable_1 |].
  split; [apply Qle_shift_div_l | apply Qle_shift_div_r]; lra.
Qed.

Lemma offset_b : 0 <= round (round (s / 100) * circ_q) <= circ_q.
Proof.
  pose proof offset_a. pose proof circ_q_bounds.
  apply round_between; [exact circ_q_representable | split; nra].
Qed.

Lemma offset_o : 0 <= offset_q s <= circ_q.
Proof.
  pose proof offset_b. apply round_between; [exact circ_q_representable | lra].
Qed.

Lemma gaugeOffset_eq : gaugeOffset (Fin s) = Fin (offset_q s).
Proof.
  pose proof offset_a. pose proof offset_b. pose proof offset_o. pose proof circ_q_bounds.
  unfold gaugeOffset. rewrite circumference_eq. unfold of_Z.
  change (inject_Z 100) with 100. rewrite div_fin by discriminate.
  rewrite (rnd_fin_small (s / 100)) by lra.
  rewrite mul_fin, (rnd_fin_small (round (s / 100) * circ_q)) by lra.
  rewrite sub_fin, rnd_fin_small by (unfold offset_q in *; lra).
  reflexivity.
Qed.

End Offset.

(** ** Theorems on the gauge *)

(** C15: The offset decreases as the score rises: a higher score never
    shows a shorter arc. *)
Theorem gaugeOffset_antitone (s1 s2 : Q) : 0 <= s1 -> s1 <= s2 -> s2 <= 100 ->
  le (gaugeOffset (Fin s2)) (gaugeOffset (Fin s1)).
Proof.
  intros H1 H12 H2. rewrite !gaugeOffset_eq by lra.
  unfold le, ge. apply Qle_bool_iff. unfold offset_q.
  pose proof circ_q_bounds. apply round_mono.
  assert (round (s1 / 100) <= round (s2 / 100))
    by (apply round_mono, Qmult_le_mono_pos_r; [reflexivity | exact H12]).
  assert (round (round (s1 / 100) * circ_q) <= round (round (s2 / 100) * circ_q))
    by (apply round_mono, Qmult_le_mono_pos_r; [lra | assumption]).
  lra.
Qed.

(** The exact offset of the double computation is close to the real one. *)
Lemma offset_q_err (s : Q) : 0 <= s <= 100 ->
  Qabs (offset_q s - circ_q * (1 - s / 100)) <= pow2 (-42).
Proof.
  intros Hs. pose proof (offset_a s Hs) as Ha. pose proof (offset_b s Hs) as Hb.
  pose proof circ_q_bounds as Hc.
  unfold offset_q. set (a := round (s / 100)) in *. set (b := round (a * circ_q)) in *.
  set (c := circ_q) in *. set (u := pow2 (-53)). set (eta := pow2 (-1075)).
  assert (Hu : 0 < u) by apply pow2_pos. assert (He : 0 < eta) by apply pow2_pos.
  assert (Hs1 : 0 <= s / 100 <= 1) by (split; [apply Qle_shift_div_l | apply Qle_shift_div_r]; lra).
  pose proof (round_err (s / 100)) as E1. pose proof (round_err (a * c)) as E2.
  pose proof (round_err (c + - b)) as E3. fold a b u eta in E1, E2, E3.
  rewrite (Qabs_pos (s / 100)) in E1 by lra. rewrite (Qabs_pos (a * c)) in E2 by nra.
  rewrite (Qabs_pos (c + - b)) in E3 by lra. apply Qabs_Qle_condition in E1, E2, E3.
  assert (Hbound : 3 * 566 * u + 568 * eta <= pow2 (-42)) by (vm_compute; discriminate).
  assert (F1 : s / 100 * u <= u) by nra.
  assert (F2 : a * c * u <= c * u) by (apply Qmult_le_mono_pos_r; nra).
  assert (F3 : (c + - b) * u <= c * u) by nra.
  assert (F4 : c * u <= 566 * u) by nra.
  assert (F5 : c * eta <= 566 * eta) by nra.
  assert (G : c * (a - s / 100) <= c * (s / 100 * u + eta) /\ - (c * (s / 100 * u + eta)) <= c * (a - s / 100))
    by (split; nra).
  apply Qabs_Qle_condition. split; nra.
Qed.

(** C16: For a score in [0, 100] the offset the code computes on doubles
    is a finite double in [0, circumference], within [2^-42] of the
    exact offset [C * (1 - s / 100)] of the specification, for the double
    [C] the code computes as circumference. *)
Theorem gaugeOffset_refines (s : Q) : 0 <= s <= 100 ->
  exists o, gaugeOffset (Fin s) = Fin o /\ 0 <= o <= circ_q /\
            Qabs (o - circ_q * (1 - s / 100)) <= pow2 (-42).
Proof.
  intros Hs. exists (offset_q s).
  split; [apply gaugeOffset_eq, Hs | split; [apply offset_o, Hs | apply offset_q_err, Hs]].
Qed.

(** ** The stroke colour *)

(** The colours from the lowest band to the highest. *)
Definition palette : list string :=
  ["#f44336"; "#FF9800"; "#9C27B0"; "#2196F3"; "#4CAF50"; "#ffd700"].

Fixpoint index_of (x : string) (l : list string) : nat :=
  match l with
  | [] => 0
  | y :: l' => if String.eqb x y then 0 else S (index_of x l')
  end.

Definition color_rank (c : string) : nat := index_of c palette.

(** The band of a score: how many of the thresholds 40, 50, 60, 70, 80
    it reaches. *)
Definition band (q : Q) : nat :=
  length (filter (fun t => Qle_bool (inject_Z t) q) [40; 50; 60; 70; 80]%Z).

(** Decide each threshold test of [gaugeColor] from the position of [q]. *)
Ltac decide_thresholds :=
  repeat match goal with
  | |- context [Qle_bool ?a ?b] =>
      first [ replace (Qle_bool a b) with true by (symmetry; apply Qle_bool_iff; cbv [inject_Z]; lra)
            | replace (Qle_bool a b) with false
                by (symmetry; apply Bool.not_true_iff_false; rewrite Qle_bool_iff; cbv [inject_Z]; lra) ]
  end.

(** The colour of a finite score is the palette entry of its band. *)
Lemma gaugeColor_band (q : Q) : gaugeColor (Fin q) = nth (band q) palette "".
Proof.
  unfold gaugeColor, band, ge, of_Z. cbv [filter].
  destruct (Qlt_le_dec q 40); [decide_thresholds; reflexivity |].
  destruct (Qlt_le_dec q 50); [decide_thresholds; reflexivity |].
  destruct (Qlt_le_dec q 60); [decide_thresholds; reflexivity |].
  destruct (Qlt_le_dec q 70); [decide_thresholds; reflexivity |].
  destruct (Qlt_le_dec q 80); decide_thresholds; reflexivity.
Qed.

Lemma band_mono (q1 q2 : Q) : q1 <= q2 -> (band q1 <= band q2)%nat.
Proof.
  intros H. unfold band. generalize [40; 50; 60; 70; 80]%Z as l.
  induction l as [|t l IH]; simpl; [lia |].
  destruct (Qle_bool (inject_Z t) q1) eqn:E1; destruct (Qle_bool (inject_Z t) q2) eqn:E2;
    simpl; qbool; try lia. exfalso. lra.
Qed.

Lemma band_le (q : Q) : (band q <= 5)%nat.
Proof.
  unfold band. change 5%nat with (length [40; 50; 60; 70; 80]%Z). apply filter_length_le.
Qed.

(** C17: A higher score never gets a colour of a lower band. *)
Theorem gaugeColor_monotone (q1 q2 : Q) : q1 <= q2 ->
  (color_rank (gaugeColor (Fin q1)) <= color_rank (gaugeColor (Fin q2)))%nat.
Proof.
  intros H. rewrite !gaugeColor_band.
  assert (Hr : forall i, (i <= 5)%nat -> color_rank (nth i palette "") = i)
    by (intros i Hi; do 6 (destruct i as [|i]; [reflexivity |]); lia).
  rewrite !Hr by apply band_le. apply band_mono. exact H.
Qed.

Lemma gaugeOffset_antitone_witness :
  0 <= 50 /\ 50 <= 72 /\ 72 <= 100 /\ le (gaugeOffset (Fin 72)) (gaugeOffset (Fin 50)).
Proof.
  split; [lra | split; [lra | split; [lra |]]].
  apply (gaugeOffset_antitone 50 72); lra.
Defined.

Lemma gaugeOffset_refines_witness :
  0 <= 72 <= 100 /\ exists o, gaugeOffset (Fin 72) = Fin o /\ 0 <= o <= circ_q.
Proof.
  split; [lra |]. destruct (gaugeOffset_refines 72 ltac:(lra)) as (o & H1 & H2 & _). exists o. auto.
Defined.

Lemma gaugeColor_monotone_witness :
  65 <= 72 /\ (color_rank (gaugeColor (Fin 65)) <= color_rank (gaugeColor (Fin 72)))%nat.
Proof. split; [lra | apply gaugeColor_monotone; lra]. Defined.
