(* ===== verification/Dom.v ===== *)
(** * The display surface: the document's elements by id

    [script.js] reads and writes elements through
    [document.getElementById(id)]: the document is a finite map from ids
    to elements (stdpp's [gmap]).  Each element keeps the properties the
    code writes.  Writing a property of an id the document lacks is a
    TypeError ([getElementById] returns [null]); a write done before the
    error stays done, as the effect monad of the prelude keeps the state.
    CSS properties assigned a number keep its [ToString] serialisation,
    and ignore a value CSS rejects ([NaN], [Infinity]). *)

From Stdlib Require Import String.
From stdpp Require Import gmap strings.
From S2P Require Import Prelude Binary64 JsNumber.
Local Open Scope string_scope.

Record element : Type := mkElement {
  textContent : string;
  src : string;
  className : string;
  display : string;           (* [style.display] *)
  width : string;             (* [style.width] *)
  stroke : string;            (* [style.stroke] *)
  strokeDashoffset : string;  (* [style.strokeDashoffset] *)
  disabled : bool;
  value : string              (* an input's [value]; read only by the code *)
}.

Abbreviation document := (gmap string element).

Definition with_text (v : string) (e : element) : element :=
  mkElement v (src e) (className e) (display e) (width e) (stroke e) (strokeDashoffset e) (disabled e) (value e).
Definition with_src (v : string) (e : element) : element :=
  mkElement (textContent e) v (className e) (display e) (width e) (stroke e) (strokeDashoffset e) (disabled e) (value e).
Definition with_className (v : string) (e : element) : element :=
  mkElement (textContent e) (src e) v (display e) (width e) (stroke e) (strokeDashoffset e) (disabled e) (value e).
Definition with_display (v : string) (e : element) : element :=
  mkElement (textContent e) (src e) (className e) v (width e) (stroke e) (strokeDashoffset e) (disabled e) (value e).
Definition with_width (v : string) (e : element) : element :=
  mkElement (textContent e) (src e) (className e) (display e) v (stroke e) (strokeDashoffset e) (disabled e) (value e).
Definition with_stroke (v : string) (e : element) : element :=
  mkElement (textContent e) (src e) (className e) (display e) (width e) v (strokeDashoffset e) (disabled e) (value e).
Definition with_dashoffset (v : string) (e : element) : element :=
  mkElement (textContent e) (src e) (className e) (display e) (width e) (stroke e) v (disabled e) (value e).
Definition with_disabled (v : bool) (e : element) : element :=
  mkElement (textContent e) (src e) (className e) (display e) (width e) (stroke e) (strokeDashoffset e) v (value e).


(** A CSS property assigned a number: a finite number is stored as its
    serialisation followed by [unit]; NaN and the infinities are not
    valid CSS values and leave the property as it was. *)
Definition css_number (unit : string) (x : num) (old : string) : string :=
  match x with
  | Fin _ => toString x ++ unit
  | _ => old
  end.

(** The property writes of the code, as data. *)
Inductive write : Type :=
| WText (v : string)
| WSrc (v : string)
| WClass (v : string)
| WDisplay (v : string)
| WWidth (x : num)          (* [style.width = x + '%'] *)
| WStroke (v : string)
| WDashoffset (x : num)     (* [style.strokeDashoffset = x] *)
| WDisabled (b : bool).

Definition prop_name (w : write) : string :=
  match w with
  | WText _ => "textContent" | WSrc _ => "src" | WClass _ => "className"
  | WDisplay _ => "display" | WWidth _ => "width" | WStroke _ => "stroke"
  | WDashoffset _ => "strokeDashoffset" | WDisabled _ => "disabled"
  end.

Definition apply_write (w : write) (e : element) : element :=
  match w with
  | WText v => with_text v e
  | WSrc v => with_src v e
  | WClass v => with_className v e
  | WDisplay v => with_display v e
  | WWidth x => with_width (css_number "%" x (width e)) e
  | WStroke v => with_stroke v e
  | WDashoffset x => with_dashoffset (css_number "" x (strokeDashoffset e)) e
  | WDisabled b => with_disabled b e
  end.

(** The message of the TypeError raised when the element is [null]: a
    style property first reads [style] of [null]. *)
Definition null_write_error (w : write) : string :=
  match w with
  | WDisplay _ | WWidth _ | WStroke _ | WDashoffset _ => "Cannot read properties of null (reading 'style')"
  | _ => "Cannot set properties of null (setting '" ++ prop_name w ++ "')"
  end.

(** [document.getElementById(id).<prop> = v] *)
Definition set_write (id : string) (w : write) : St document unit :=
  fun d => match d !! id with
           | Some e => (Normal tt, <[id := apply_write w e]> d)
           | None => (Throw (null_write_error w), d)
           end.

Definition set_text (id v : string) : St document unit := set_write id (WText v).
Definition set_src (id v : string) : St document unit := set_write id (WSrc v).
Definition set_className (id v : string) : St document unit := set_write id (WClass v).
Definition set_display (id v : string) : St document unit := set_write id (WDisplay v).
Definition set_stroke (id v : string) : St document unit := set_write id (WStroke v).
Definition set_disabled (id : string) (b : bool) : St document unit := set_write id (WDisabled b).
Definition set_width (id : string) (x : num) : St document unit := set_write id (WWidth x).
Definition set_dashoffset (id : string) (x : num) : St document unit := set_write id (WDashoffset x).

(** [document.getElementById(id).value] *)
Definition read_value (id : string) : St document string :=
  fun d => match d !! id with
           | Some e => (Normal (value e), d)
           | None => (Throw "Cannot read properties of null (reading 'value')", d)
           end.

(** [el.<method>(...)] on [document.getElementById(id)]: only checks
    that the element exists. *)
Definition require_element (id prop : string) : St document unit :=
  fun d => match d !! id with
           | Some _ => (Normal tt, d)
           | None => (Throw ("Cannot read properties of null (reading '" ++ prop ++ "')"), d)
           end.

(** ** Writes *)

Lemma set_write_present (id : string) (w : write) (d : document) (e : element) :
  d !! id = Some e -> set_write id w d = (Normal tt, <[id := apply_write w e]> d).
Proof. intros H. unfold set_write. rewrite H. reflexivity. Qed.

Lemma set_write_absent (id : string) (w : write) (d : document) :
  d !! id = None -> set_write id w d = (Throw (null_write_error w), d).
Proof. intros H. unfold set_write. rewrite H. reflexivity. Qed.

(** A write never adds or removes an element. *)
Lemma set_write_dom (id : string) (w : write) (d : document) :
  dom (snd (set_write id w d)) = dom d.
Proof.
  unfold set_write. destruct (d !! id) eqn:E; simpl; [| reflexivity].
  rewrite dom_insert_L. assert (Hin : id ∈ dom d) by (apply elem_of_dom; eexists; exact E).
  set_solver.
Qed.

(** Every id of [ids] names an element of [d]. *)
Definition has_ids (ids : list string) (d : document) : Prop := Forall (fun i => is_Some (d !! i)) ids.

Lemma has_ids_dom (ids : list string) (d d' : document) :
  dom d' = dom d -> has_ids ids d -> has_ids ids d'.
Proof.
  intros Hd. unfold has_ids. intros H. eapply Forall_impl; [exact H |]. intros i Hi.
  apply elem_of_dom. rewrite Hd. apply elem_of_dom. exact Hi.
Qed.



(** ** Straight-line sequences of writes *)

Fixpoint run_writes (ws : list (string * write)) : St document unit :=
  match ws with
  | [] => ret tt
  | (id, w) :: ws' => bind (set_write id w) (fun _ => run_writes ws')
  end.

(** The document after the writes, when every id is present. *)
Definition step_write (d : document) (iw : string * write) : document :=
  match d !! iw.1 with
  | Some e => <[iw.1 := apply_write iw.2 e]> d
  | None => d
  end.

Definition final (ws : list (string * write)) (d : document) : document := fold_left step_write ws d.

(** The element [k] after the writes addressed to it. *)
Fixpoint apply_writes_to (k : string) (ws : list (string * write)) (e : element) : element :=
  match ws with
  | [] => e
  | (j, w) :: ws' => apply_writes_to k ws' (if String.eqb j k then apply_write w e else e)
  end.

Lemma step_write_dom (d : document) (iw : string * write) : dom (step_write d iw) = dom d.
Proof.
  unfold step_write. destruct (d !! iw.1) eqn:E; [| reflexivity].
  rewrite dom_insert_L. assert (iw.1 ∈ dom d) by (apply elem_of_dom; eexists; exact E). set_solver.
Qed.

Lemma final_dom (ws : list (string * write)) (d : document) : dom (final ws d) = dom d.
Proof.
  unfold final. revert d. induction ws as [|iw ws IH]; intros d; simpl; [reflexivity |].
  rewrite IH. apply step_write_dom.
Qed.

Lemma run_writes_ok (ws : list (string * write)) (d : document) :
  has_ids (map fst ws) d -> run_writes ws d = (Normal tt, final ws d).
Proof.
  revert d. induction ws as [|[id w] ws IH]; intros d Hids; [reflexivity |].
  inversion Hids as [|? ? [e He] Hrest]; subst. simpl. unfold bind.
  assert (Hs : step_write d (id, w) = <[id:=apply_write w e]> d)
    by (unfold step_write; simpl; rewrite He; reflexivity).
  rewrite (set_write_present id w d e He), <- Hs. apply IH.
  apply (has_ids_dom _ d); [apply step_write_dom | exact Hrest].
Qed.

(** A write to a missing element throws; the earlier writes stay done. *)
Lemma run_writes_missing (ws1 ws2 : list (string * write)) (id : string) (w : write) (d : document) :
  has_ids (map fst ws1) d -> d !! id = None ->
  run_writes (ws1 ++ (id, w) :: ws2) d = (Throw (null_write_error w), final ws1 d).
Proof.
  revert d. induction ws1 as [|[j w'] ws1 IH]; intros d Hids Hnone.
  - simpl. unfold bind. rewrite set_write_absent by exact Hnone. reflexivity.
  - inversion Hids as [|? ? [e He] Hrest]; subst. simpl. unfold bind.
    assert (Hs : step_write d (j, w') = <[j:=apply_write w' e]> d)
      by (unfold step_write; simpl; rewrite He; reflexivity).
    rewrite (set_write_present j w' d e He), <- Hs. apply IH.
    + apply (has_ids_dom _ d); [apply step_write_dom | exact Hrest].
    + apply not_elem_of_dom. rewrite step_write_dom. apply not_elem_of_dom. exact Hnone.
Qed.

Lemma has_ids_incl (ids1 ids2 : list string) (d : document) :
  incl ids1 ids2 -> has_ids ids2 d -> has_ids ids1 d.
Proof.
  unfold has_ids. rewrite !List.Forall_forall. intros Hi H k Hk. apply H, Hi, Hk.
Qed.

(** A sequence of writes that completes had every element it writes. *)
Lemma run_writes_normal (ws : list (string * write)) (d : document) :
  fst (run_writes ws d) = Normal tt -> has_ids (map fst ws) d.
Proof.
  revert d. induction ws as [|[id w] ws IH]; intros d H; simpl; [constructor |].
  simpl in H. unfold bind, set_write in H. destruct (d !! id) as [e|] eqn:E; [| discriminate].
  constructor; [eexists; exact E |]. apply (has_ids_dom _ (<[id:=apply_write w e]> d)); [| apply IH, H].
  rewrite dom_insert_L. assert (id ∈ dom d) by (apply elem_of_dom; eexists; exact E). set_solver.
Qed.

Lemma final_lookup (ws : list (string * write)) (d : document) (k : string) :
  final ws d !! k = apply_writes_to k ws <$> d !! k.
Proof.
  unfold final. revert d. induction ws as [|[j w] ws IH]; intros d; simpl.
  - destruct (d !! k); reflexivity.
  - rewrite IH. unfold step_write; simpl. destruct (d !! j) as [e|] eqn:E.
    + destruct (String.eqb_spec j k) as [-> | Hne].
      * rewrite lookup_insert_eq, E. reflexivity.
      * rewrite lookup_insert_ne by exact Hne. reflexivity.
    + destruct (String.eqb_spec j k) as [-> | Hne]; [rewrite E |]; reflexivity.
Qed.

(** ** Reading a property after a sequence of writes *)

Inductive field : Type := FText | FSrc | FClass | FDisplay | FWidth | FStroke | FDashoffset.

Definition get_field (f : field) (e : element) : string :=
  match f with
  | FText => textContent e | FSrc => src e | FClass => className e | FDisplay => display e
  | FWidth => width e | FStroke => stroke e | FDashoffset => strokeDashoffset e
  end.

(** What a write does to one property. *)
Definition write_field (f : field) (w : write) (old : string) : string :=
  match f, w with
  | FText, WText v | FSrc, WSrc v | FClass, WClass v | FDisplay, WDisplay v | FStroke, WStroke v => v
  | FWidth, WWidth x => css_number "%" x old
  | FDashoffset, WDashoffset x => css_number "" x old
  | _, _ => old
  end.

Fixpoint field_after (f : field) (k : string) (ws : list (string * write)) (old : string) : string :=
  match ws with
  | [] => old
  | (j, w) :: ws' => field_after f k ws' (if String.eqb j k then write_field f w old else old)
  end.

Lemma get_apply_write (f : field) (w : write) (e : element) :
  get_field f (apply_write w e) = write_field f w (get_field f e).
Proof. destruct f, w; reflexivity. Qed.

Lemma get_apply_writes_to (f : field) (k : string) (ws : list (string * write)) (e : element) :
  get_field f (apply_writes_to k ws e) = field_after f k ws (get_field f e).
Proof.
  revert e. induction ws as [|[j w] ws IH]; intros e; simpl; [reflexivity |].
  rewrite IH. destruct (String.eqb j k); [rewrite get_apply_write |]; reflexivity.
Qed.

(** A property of an element no write addresses keeps its value. *)
Lemma final_field (f : field) (ws : list (string * write)) (d : document) (k : string) (e : element) :
  d !! k = Some e ->
  get_field f <$> final ws d !! k = Some (field_after f k ws (get_field f e)).
Proof. intros H. rewrite final_lookup, H. simpl. rewrite get_apply_writes_to. reflexivity. Qed.

(** An element no write addresses is left as it was. *)
Lemma final_untouched (ws : list (string * write)) (d : document) (k : string) :
  Forall (fun iw => iw.1 <> k) ws -> final ws d !! k = d !! k.
Proof.
  intros H. rewrite final_lookup. destruct (d !! k) as [e|]; [simpl | reflexivity].
  f_equal. revert e. induction ws as [|[j w] ws IH]; intros e; simpl; [reflexivity |].
  inversion H as [|? ? Hj Hrest]; subst. simpl in Hj.
  destruct (String.eqb_spec j k); [contradiction | apply IH; exact Hrest].
Qed.

Lemma has_ids_lookup (ids : list string) (d : document) (k : string) :
  has_ids ids d -> In k ids -> exists e, d !! k = Some e.
Proof.
  unfold has_ids. rewrite List.Forall_forall. intros H Hk. destruct (H k Hk) as [e He]. exists e. exact He.
Qed.

Lemma final_app (ws1 ws2 : list (string * write)) (d : document) :
  final (ws1 ++ ws2) d = final ws2 (final ws1 d).
Proof. unfold final. apply fold_left_app. Qed.

(** The [disabled] flag after a sequence of writes. *)
Fixpoint disabled_after (k : string) (ws : list (string * write)) (old : bool) : bool :=
  match ws with
  | [] => old
  | (j, WDisabled b) :: ws' => disabled_after k ws' (if String.eqb j k then b else old)
  | _ :: ws' => disabled_after k ws' old
  end.

Lemma final_disabled (ws : list (string * write)) (d : document) (k : string) (e : element) :
  d !! k = Some e -> disabled <$> final ws d !! k = Some (disabled_after k ws (disabled e)).
Proof.
  intros H. rewrite final_lookup, H. simpl. f_equal. clear H. revert e.
  induction ws as [|[j w] ws IH]; intros e; simpl; [reflexivity |].
  rewrite IH. destruct (String.eqb j k), w; reflexivity.
Qed.

(** Two straight-line programs that perform the same writes in the same
    order agree on every document: destruct each write's outcome. *)
Ltac same_writes :=
  intros ?d; cbn [run_writes]; unfold bind, ret;
  repeat match goal with
         | |- context [set_write ?i ?w ?s] => destruct (set_write i w s) as [[[]|?] ?]
         end; reflexivity.

Lemma field_after_app (f : field) (k : string) (ws1 ws2 : list (string * write)) (old : string) :
  field_after f k (ws1 ++ ws2) old = field_after f k ws2 (field_after f k ws1 old).
Proof. revert old. induction ws1 as [|[j w] ws1 IH]; intros old; simpl; [reflexivity | apply IH]. Qed.

Lemma disabled_after_app (k : string) (ws1 ws2 : list (string * write)) (old : bool) :
  disabled_after k (ws1 ++ ws2) old = disabled_after k ws2 (disabled_after k ws1 old).
Proof. revert old. induction ws1 as [|[j []] ws1 IH]; intros old; simpl; try apply IH; reflexivity. Qed.

(** A decision procedure for [has_ids], to check a concrete page. *)
Definition has_idsb (ids : list string) (d : document) : bool :=
  forallb (fun i => match d !! i with Some _ => true | None => false end) ids.

Lemma has_idsb_sound (ids : list string) (d : document) : has_idsb ids d = true -> has_ids ids d.
Proof.
  unfold has_idsb, has_ids. rewrite forallb_forall, List.Forall_forall. intros H i Hi.
  specialize (H i Hi). destruct (d !! i); [eexists; reflexivity | discriminate].
Qed.

(** ** A concrete page, for the instances of the theorems *)

Definition blank_element : element := mkElement "" "" "" "" "" "" "" false "".

(** A page with a blank element for each id. *)
Definition page_of (ids : list string) : document := list_to_map (map (fun k => (k, blank_element)) ids).
