(* ===== verification/Breakdown.v ===== *)
(** * Score breakdown bars ([script.js], lines 108-112)

    [updateBreakdown(id, score, max)] writes the sub-score with one
    decimal into [<id>Score] and sets the width of [<id>Bar] to
    [(score / max) * 100] percent, on doubles and without clamping.
    [displayResults] calls it for the five categories (lines 85-89). *)

From Stdlib Require Import ZArith QArith Qround Qabs Lqa Lia String List.
From stdpp Require Import gmap strings.
From S2P Require Import Prelude Binary64 JsNumber Dom.
Local Open Scope string_scope.
Local Open Scope js_scope.
Local Open Scope Q_scope.

(** [function updateBreakdown(id, score, max)] *)
Definition updateBreakdown (id : string) (score max : num) : St document unit :=
  set_text (id ++ "Score") (toFixed1 score) ;;
  set_width (id ++ "Bar") ((score ./. max) .*. of_Z 100)%num.

(** The bar's percentage as a number. *)
Definition percentage (score max : num) : num := ((score ./. max) .*. of_Z 100)%num.

(** The two writes of one call, as data. *)
Definition breakdown_writes (id : string) (sc max : num) : list (string * write) :=
  [(id ++ "Score", WText (toFixed1 sc)); (id ++ "Bar", WWidth (percentage sc max))].

(** ** Effect of one call *)

(** C21: One call writes the sub-score with one decimal into [<id>Score]
    and the percentage, serialised with [%], into the width of [<id>Bar];
    nothing else changes. *)
Theorem updateBreakdown_effect (id : string) (score max : num) (d : document) (es eb : element) :
  d !! (id ++ "Score") = Some es -> d !! (id ++ "Bar") = Some eb -> id ++ "Score" <> id ++ "Bar" ->
  updateBreakdown id score max d =
    (Normal tt, <[id ++ "Bar" := with_width (css_number "%" (percentage score max) (width eb)) eb]>
                 (<[id ++ "Score" := with_text (toFixed1 score) es]> d)).
Proof.
  intros Hs Hb Hne. unfold updateBreakdown, bind, set_text, set_width.
  rewrite (set_write_present _ _ d es Hs).
  rewrite (set_write_present _ _ _ eb) by (rewrite lookup_insert_ne by congruence; exact Hb).
  reflexivity.
Qed.

(** ** The bar percentage *)

Definition pct_q (s m : Q) : Q := round (round (s / m) * 100).

Lemma round_le_double (x y : Q) : representable y -> x <= y -> round x <= y.
Proof. intros Hy H. rewrite <- (round_exact y Hy). apply round_mono. exact H. Qed.

Lemma round_ge_double (x y : Q) : representable y -> y <= x -> y <= round x.
Proof. intros Hy H. rewrite <- (round_exact y Hy). apply round_mono. exact H. Qed.

Lemma representable_Z (z : Z) : (Z.abs z < 2 ^ 53)%Z -> representable (inject_Z z).
Proof. intros H. exists z, 0%Z. split; [unfold pow2; simpl; ring | split; [exact H | lia]]. Qed.

Section Percentage.
Variables s m : Q.
Hypothesis Hs : 0 <= s <= inject_Z (2 ^ 53).
Hypothesis Hm : 1 <= m.

Lemma pct_quot : 0 <= round (s / m) <= inject_Z (2 ^ 53).
Proof.
  assert (Hq : 0 <= s / m <= inject_Z (2 ^ 53)).
  { split; [apply Qle_shift_div_l | apply Qle_shift_div_r]; [lra | lra | lra |].
    assert (0 <= inject_Z (2 ^ 53)) by (apply inject_Z_nonneg; lia). nra. }
  split.
  - rewrite <- round_0. apply round_mono. lra.
  - apply round_le_double; [apply representable_pow2_Z; lia | lra].
Qed.

Lemma pct_bounds : 0 <= pct_q s m <= inject_Z (2 ^ 60).
Proof.
  pose proof pct_quot. unfold pct_q. split.
  - rewrite <- round_0. apply round_mono. nra.
  - apply round_le_double.
    + apply representable_pow2_Z. lia.
    + assert (inject_Z (2 ^ 53) * 100 <= inject_Z (2 ^ 60)) by (vm_compute; discriminate). nra.
Qed.

Lemma percentage_eq : percentage (Fin s) (Fin m) = Fin (pct_q s m).
Proof.
  pose proof pct_quot. pose proof pct_bounds.
  assert (Hb : inject_Z (2 ^ 60) < overflow_bound) by (vm_compute; reflexivity).
  assert (Hb' : inject_Z (2 ^ 53) <= inject_Z (2 ^ 60)) by (vm_compute; discriminate).
  unfold percentage, of_Z. rewrite div_fin by lra. rewrite rnd_fin by lra.
  change (inject_Z 100) with 100. rewrite mul_fin, rnd_fin by (unfold pct_q in *; lra).
  reflexivity.
Qed.

End Percentage.

(** ** Theorems on the bars *)

Lemma pct_mono (s1 s2 m : Q) : 0 <= s1 -> s1 <= s2 -> s2 <= inject_Z (2 ^ 53) -> 1 <= m ->
  le (percentage (Fin s1) (Fin m)) (percentage (Fin s2) (Fin m)).
Proof.
  intros H1 H12 H2 Hm. rewrite !percentage_eq by lra.
  unfold le, ge. apply Qle_bool_iff. unfold pct_q. apply round_mono.
  apply Qmult_le_mono_pos_r; [reflexivity |]. apply round_mono.
  apply Qmult_le_mono_pos_r; [apply Qinv_lt_0_compat; lra | exact H12].
Qed.

Lemma pct_at_max (m : Q) : 1 <= m <= inject_Z (2 ^ 53) -> percentage (Fin m) (Fin m) = Fin 100.
Proof.
  intros Hm. rewrite percentage_eq by lra. unfold pct_q.
  rewrite (round_Proper (m / m) 1) by (field; lra). reflexivity.
Qed.

(** C19: A higher sub-score never gives a narrower bar, and a sub-score
    equal to its maximum fills the bar exactly: [100]. *)
Theorem percentage_monotone (s1 s2 m : Q) : 0 <= s1 -> s1 <= s2 -> s2 <= inject_Z (2 ^ 53) -> 1 <= m ->
  le (percentage (Fin s1) (Fin m)) (percentage (Fin s2) (Fin m)) /\
  (m <= inject_Z (2 ^ 53) -> percentage (Fin m) (Fin m) = Fin 100).
Proof. intros H1 H12 H2 Hm. split; [apply pct_mono; assumption | intros Hm'; apply pct_at_max; lra]. Qed.

(** C20: The width is not clamped: for every sub-score up to 2^53,
    above its maximum too, the bar width on doubles follows
    [100 * score / max] to a relative [2^-51] (plus an absolute error
    below [2^-1060]); a sub-score twice its maximum gives a width of
    about 200, where a clamp would give 100. *)
Theorem percentage_unclamped (s m : Q) : 0 <= s <= inject_Z (2 ^ 53) -> 1 <= m ->
  exists p, percentage (Fin s) (Fin m) = Fin p /\
            Qabs (p - 100 * (s / m)) <= 100 * (s / m) * pow2 (-51) + pow2 (-1060).
Proof.
  intros Hs Hm. exists (pct_q s m). split; [apply percentage_eq; assumption |].
  unfold pct_q. set (x := s / m). set (a := round x). set (u := pow2 (-53)). set (eta := pow2 (-1075)).
  assert (Hu : 0 < u) by apply pow2_pos. assert (He : 0 < eta) by apply pow2_pos.
  assert (Hx : 0 <= x) by (apply Qle_shift_div_l; lra).
  assert (Ha : 0 <= a) by (rewrite <- round_0; apply round_mono; exact Hx).
  pose proof (round_err x) as E1. pose proof (round_err (a * 100)) as E2. fold a u eta in E1, E2.
  rewrite (Qabs_pos x) in E1 by exact Hx. rewrite (Qabs_pos (a * 100)) in E2 by lra.
  apply Qabs_Qle_condition in E1, E2.
  assert (Hu1 : u <= 1) by (vm_compute; discriminate).
  assert (Hrel : 4 * u == pow2 (-51)) by (vm_compute; reflexivity).
  assert (Habs : 201 * eta <= pow2 (-1060)) by (vm_compute; discriminate).
  assert (F1 : a * u <= x * u + x * u * u + eta * u) by nra.
  assert (Hxu : 0 <= x * u) by (apply Qmult_le_0_compat; lra).
  assert (F2 : x * u * u <= x * u) by nra.
  assert (F3 : eta * u <= eta) by nra.
  apply Qabs_Qle_condition. rewrite <- Hrel. split; lra.
Qed.

Lemma pct_q_err (s m : Q) : 0 <= s <= m -> 1 <= m ->
  Qabs (pct_q s m - 100 * (s / m)) <= pow2 (-45).
Proof.
  intros Hs Hm. unfold pct_q. set (a := round (s / m)). set (u := pow2 (-53)). set (eta := pow2 (-1075)).
  assert (Hu : 0 < u) by apply pow2_pos. assert (He : 0 < eta) by apply pow2_pos.
  assert (Hq : 0 <= s / m <= 1) by (split; [apply Qle_shift_div_l | apply Qle_shift_div_r]; lra).
  assert (Ha : 0 <= a <= 1)
    by (split; [rewrite <- round_0; apply round_mono; lra | apply round_le_double; [apply (representable_Z 1); lia | lra]]).
  pose proof (round_err (s / m)) as E1. pose proof (round_err (a * 100)) as E2. fold a u eta in E1, E2.
  rewrite (Qabs_pos (s / m)) in E1 by lra. rewrite (Qabs_pos (a * 100)) in E2 by lra.
  apply Qabs_Qle_condition in E1, E2.
  assert (Hbound : 200 * u + 101 * eta <= pow2 (-45)) by (vm_compute; discriminate).
  assert (F1 : s / m * u <= u) by nra. assert (F2 : a * 100 * u <= 100 * u) by nra.
  apply Qabs_Qle_condition. split; nra.
Qed.

(** C18: For a sub-score between 0 and its maximum, the bar width the
    code computes on doubles is a finite double within [2^-45] percent
    of the exact [100 * score / max]. *)
Theorem percentage_refines (s m : Q) : 0 <= s <= m -> 1 <= m -> m <= inject_Z (2 ^ 53) ->
  exists p, percentage (Fin s) (Fin m) = Fin p /\ Qabs (p - 100 * (s / m)) <= pow2 (-45).
Proof.
  intros Hs Hm Hm'. exists (pct_q s m).
  split; [apply percentage_eq; lra | apply pct_q_err; assumption].
Qed.

Definition breakdown_page : document :=
  <["reachBar" := blank_element]> (<["reachScore" := blank_element]> ∅).

Lemma updateBreakdown_effect_witness :
  breakdown_page !! ("reach" ++ "Score") = Some blank_element /\
  breakdown_page !! ("reach" ++ "Bar") = Some blank_element /\
  updateBreakdown "reach" (of_Z 10) (of_Z 25) breakdown_page =
    (Normal tt, <["reachBar" := with_width "40%" blank_element]>
                  (<["reachScore" := with_text "10.0" blank_element]> breakdown_page)).
Proof.
  split; [vm_compute; reflexivity | split; [vm_compute; reflexivity |]].
  rewrite (updateBreakdown_effect "reach" (of_Z 10) (of_Z 25) breakdown_page blank_element blank_element);
    [| vm_compute; reflexivity | vm_compute; reflexivity | discriminate].
  vm_compute. reflexivity.
Defined.

Lemma percentage_monotone_witness :
  0 <= 7 /\ 7 <= 8 /\ 8 <= inject_Z (2 ^ 53) /\ 1 <= 25 /\
  le (percentage (Fin 7) (Fin 25)) (percentage (Fin 8) (Fin 25)).
Proof.
  assert (H : 8 <= inject_Z (2 ^ 53)) by (vm_compute; discriminate).
  split; [lra | split; [lra | split; [exact H | split; [lra |]]]].
  exact (proj1 (percentage_monotone 7 8 25 ltac:(lra) ltac:(lra) H ltac:(lra))).
Defined.

Lemma percentage_unclamped_witness :
  0 <= 80 <= inject_Z (2 ^ 53) /\ 1 <= 40 /\
  exists p, percentage (Fin 80) (Fin 40) = Fin p /\
            Qabs (p - 100 * (80 / 40)) <= 100 * (80 / 40) * pow2 (-51) + pow2 (-1060).
Proof.
  assert (H : 0 <= 80 <= inject_Z (2 ^ 53)) by (split; [lra | vm_compute; discriminate]).
  split; [exact H | split; [lra |]]. exact (percentage_unclamped 80 40 H ltac:(lra)).
Defined.

Lemma percentage_refines_witness :
  0 <= 7 <= 25 /\ 1 <= 25 /\ 25 <= inject_Z (2 ^ 53) /\
  exists p, percentage (Fin 7) (Fin 25) = Fin p /\ Qabs (p - 100 * (7 / 25)) <= pow2 (-45).
Proof.
  assert (H : 25 <= inject_Z (2 ^ 53)) by (vm_compute; discriminate).
  split; [lra | split; [lra | split; [exact H |]]].
  destruct (percentage_refines 7 25 ltac:(lra) ltac:(lra) H) as (p & Hp & He).
  exists p. split; [exact Hp | exact He].
Defined.
