(* ===== verification/Render.v ===== *)
(** * [displayResults]: the analysis result onto the page ([script.js], lines 45-106)

    The response body of [/analyze] is modelled by records with the
    fields the code reads; [full_name] may be [null] ([None]).
    [displayResults] is a straight-line sequence of property writes, two
    of them guarded by the badge flags; it is defined as in the source
    and shown equal to [run_writes (render_writes data)], from which the
    theorems read off the rendered page. *)

From Stdlib Require Import ZArith QArith String List.
From stdpp Require Import gmap strings.
From S2P Require Import Prelude Binary64 JsNumber JsString FormatNumber TierClass Gauge Dom Breakdown.
Local Open Scope string_scope.
Local Open Scope js_scope.

Record Profile : Type := mkProfile {
  profile_pic : string;
  full_name : option string;
  category : string;
  is_verified : bool;
  is_business : bool;
  followers : num;
  posts_count : num
}.

Record Engagement : Type := mkEngagement {
  avg_likes : num;
  avg_comments : num;
  avg_engagement_rate : num
}.

Record Content : Type := mkContent {
  brands_count : num;
  num_images : num;
  num_carousel : num;
  num_videos : num
}.

(** [score.breakdown.<key>.score] for the five keys. *)
Record ScoreBreakdown : Type := mkBreakdown {
  engagement_quality : num;
  reach : num;
  content_quality : num;
  credibility : num;
  brand_collaboration : num
}.

Record Score : Type := mkScore {
  total_score : num;
  tier : string;
  breakdown : ScoreBreakdown
}.

Record AnalysisResult : Type := mkResult {
  username : string;
  profile : Profile;
  engagement : Engagement;
  content : Content;
  score : Score
}.

(** [profile.full_name || data.username]: [null] and [""] are falsy. *)
Definition displayName (full : option string) (user : string) : string :=
  match full with
  | Some n => if String.eqb n "" then user else n
  | None => user
  end.

Definition displayResults (data : AnalysisResult) : St document unit :=
  let p := profile data in
  let e := engagement data in
  let c := content data in
  let s := score data in
  set_src "profilePic" (profile_pic p) ;;
  set_text "fullName" (displayName (full_name p) (username data)) ;;
  set_text "usernameDisplay" (username data) ;;
  set_text "categoryBadge" (category p) ;;
  (if is_verified p then set_display "verifiedBadge" "inline-block" else ret tt) ;;
  (if is_business p then set_display "businessBadge" "inline-block" else ret tt) ;;
  let totalScore := total_score s in
  set_text "totalScore" (toString totalScore) ;;
  set_text "scoreTier" (tier s) ;;
  set_className "scoreTier" (tierBadgeClassName (tier s)) ;;
  set_dashoffset "scoreCircle" (gaugeOffset totalScore) ;;
  set_stroke "scoreCircle" (gaugeColor totalScore) ;;
  updateBreakdown "engagement" (engagement_quality (breakdown s)) (of_Z 40) ;;
  updateBreakdown "reach" (reach (breakdown s)) (of_Z 25) ;;
  updateBreakdown "content" (content_quality (breakdown s)) (of_Z 15) ;;
  updateBreakdown "credibility" (credibility (breakdown s)) (of_Z 10) ;;
  updateBreakdown "brand" (brand_collaboration (breakdown s)) (of_Z 10) ;;
  set_text "followers" (formatNumber (followers p)) ;;
  set_text "avgLikes" (formatNumber (avg_likes e)) ;;
  set_text "avgComments" (formatNumber (avg_comments e)) ;;
  set_text "engagementRate" (toString (avg_engagement_rate e) ++ "%") ;;
  set_text "postsCount" (formatNumber (posts_count p)) ;;
  set_text "brandsCount" (toString (brands_count c)) ;;
  set_text "numImages" (toString (num_images c)) ;;
  set_text "numCarousels" (toString (num_carousel c)) ;;
  set_text "numVideos" (toString (num_videos c)) ;;
  set_display "results" "block".

(** ** The writes of a render *)


(** The writes of lines 49-104; line 105 shows the section. *)
Definition render_body (data : AnalysisResult) : list (string * write) :=
  let p := profile data in
  let e := engagement data in
  let c := content data in
  let s := score data in
  let ts := total_score s in
  [("profilePic", WSrc (profile_pic p));
   ("fullName", WText (displayName (full_name p) (username data)));
   ("usernameDisplay", WText (username data));
   ("categoryBadge", WText (category p))] ++
  (if is_verified p then [("verifiedBadge", WDisplay "inline-block")] else []) ++
  (if is_business p then [("businessBadge", WDisplay "inline-block")] else []) ++
  [("totalScore", WText (toString ts));
   ("scoreTier", WText (tier s));
   ("scoreTier", WClass (tierBadgeClassName (tier s)));
   ("scoreCircle", WDashoffset (gaugeOffset ts));
   ("scoreCircle", WStroke (gaugeColor ts))] ++
  breakdown_writes "engagement" (engagement_quality (breakdown s)) (of_Z 40) ++
  breakdown_writes "reach" (reach (breakdown s)) (of_Z 25) ++
  breakdown_writes "content" (content_quality (breakdown s)) (of_Z 15) ++
  breakdown_writes "credibility" (credibility (breakdown s)) (of_Z 10) ++
  breakdown_writes "brand" (brand_collaboration (breakdown s)) (of_Z 10) ++
  [("followers", WText (formatNumber (followers p)));
   ("avgLikes", WText (formatNumber (avg_likes e)));
   ("avgComments", WText (formatNumber (avg_comments e)));
   ("engagementRate", WText (toString (avg_engagement_rate e) ++ "%"));
   ("postsCount", WText (formatNumber (posts_count p)));
   ("brandsCount", WText (toString (brands_count c)));
   ("numImages", WText (toString (num_images c)));
   ("numCarousels", WText (toString (num_carousel c)));
   ("numVideos", WText (toString (num_videos c)))].

Definition render_writes (data : AnalysisResult) : list (string * write) :=
  render_body data ++ [("results", WDisplay "block")].

(** [displayResults] is the sequence of writes [render_writes]: the two
    sides agree on every document, write by write. *)
Lemma displayResults_writes (data : AnalysisResult) :
  st_eq (displayResults data) (run_writes (render_writes data)).
Proof.
  intros d. unfold displayResults, render_writes, render_body, updateBreakdown, breakdown_writes,
    set_text, set_src, set_className, set_display, set_stroke, set_width, set_dashoffset, percentage.
  destruct (is_verified (profile data)), (is_business (profile data));
    cbn [run_writes app]; unfold bind, ret;
    repeat match goal with
           | |- context [set_write ?i ?w ?s] => destruct (set_write i w s) as [[[]|?] ?]
           end; reflexivity.
Qed.

(** ** The rendered page *)

(** The ids of the result section that [displayResults] writes. *)
Definition page_ids : list string :=
  ["profilePic"; "fullName"; "usernameDisplay"; "categoryBadge"; "verifiedBadge"; "businessBadge";
   "totalScore"; "scoreTier"; "scoreCircle"; "engagementScore"; "engagementBar"; "reachScore";
   "reachBar"; "contentScore"; "contentBar"; "credibilityScore"; "credibilityBar"; "brandScore";
   "brandBar"; "followers"; "avgLikes"; "avgComments"; "engagementRate"; "postsCount";
   "brandsCount"; "numImages"; "numCarousels"; "numVideos"; "results"].

Lemma render_ids_in (data : AnalysisResult) (k : string) :
  In k (map fst (render_writes data)) -> In k page_ids.
Proof.
  intros Hk. unfold render_writes, render_body in Hk.
  destruct (is_verified (profile data)), (is_business (profile data)); simpl in Hk;
    repeat (destruct Hk as [<- | Hk]; [unfold page_ids; simpl; repeat (first [left; reflexivity | right]) |]);
    contradiction.
Qed.

Lemma render_ids (data : AnalysisResult) (d : document) :
  has_ids page_ids d -> has_ids (map fst (render_writes data)) d.
Proof.
  unfold has_ids. rewrite !List.Forall_forall. intros H k Hk. apply H, (render_ids_in data), Hk.
Qed.

Ltac in_page := unfold page_ids; simpl; repeat (first [left; reflexivity | right]).

(** On a page with its elements, [displayResults] is its write list run
    to the end. *)
Lemma render_final (data : AnalysisResult) (d : document) :
  has_ids page_ids d -> displayResults data d = (Normal tt, final (render_writes data) d).
Proof.
  intros H. rewrite displayResults_writes. apply run_writes_ok, render_ids, H.
Qed.

(** The texts the specification's view model assigns to the page. *)
Definition text_view (data : AnalysisResult) : list (string * string) :=
  let p := profile data in
  let e := engagement data in
  let c := content data in
  let s := score data in
  let b := breakdown s in
  [("fullName", displayName (full_name p) (username data));
   ("usernameDisplay", username data);
   ("categoryBadge", category p);
   ("totalScore", toString (total_score s));
   ("scoreTier", tier s);
   ("engagementScore", toFixed1 (engagement_quality b));
   ("reachScore", toFixed1 (reach b));
   ("contentScore", toFixed1 (content_quality b));
   ("credibilityScore", toFixed1 (credibility b));
   ("brandScore", toFixed1 (brand_collaboration b));
   ("followers", formatNumber (followers p));
   ("avgLikes", formatNumber (avg_likes e));
   ("avgComments", formatNumber (avg_comments e));
   ("engagementRate", toString (avg_engagement_rate e) ++ "%");
   ("postsCount", formatNumber (posts_count p));
   ("brandsCount", toString (brands_count c));
   ("numImages", toString (num_images c));
   ("numCarousels", toString (num_carousel c));
   ("numVideos", toString (num_videos c))].

Ltac render_cases data :=
  unfold render_writes, render_body; destruct (is_verified (profile data)), (is_business (profile data)).

(** Walk through the entries of a concrete list membership. *)
Ltac in_cases Hin tac :=
  simpl in Hin; repeat (destruct Hin as [Hkv | Hin]; [tac Hkv |]); contradiction.

Lemma text_view_ids (data : AnalysisResult) (k v : string) :
  In (k, v) (text_view data) -> In k page_ids.
Proof. intros Hin. unfold text_view in Hin. in_cases Hin ltac:(fun Hkv => injection Hkv as <- _; in_page). Qed.

(** The last write of each text slot is the view model's text. *)
Lemma render_text_after (data : AnalysisResult) (k v old : string) :
  In (k, v) (text_view data) -> field_after FText k (render_writes data) old = v.
Proof.
  intros Hin. unfold text_view in Hin.
  render_cases data; in_cases Hin ltac:(fun Hkv => injection Hkv as <- <-; reflexivity).
Qed.

(** Read the final value of property [f] of a page element. *)
Ltac read_slot H f :=
  match goal with
  | |- _ <$> final ?ws ?d !! ?k = Some _ =>
      let e := fresh "e" in let He := fresh "He" in
      destruct (has_ids_lookup _ d k H ltac:(in_page)) as [e He];
      rewrite (final_field f ws d k e He); reflexivity
  end.

(** ** Theorems of [displayResults] *)

(** The elements a render writes: the badges only when their flag is set. *)
Definition required_ids (data : AnalysisResult) : list string :=
  ["profilePic"; "fullName"; "usernameDisplay"; "categoryBadge"] ++
  (if is_verified (profile data) then ["verifiedBadge"] else []) ++
  (if is_business (profile data) then ["businessBadge"] else []) ++
  ["totalScore"; "scoreTier"; "scoreCircle"; "engagementScore"; "engagementBar"; "reachScore";
   "reachBar"; "contentScore"; "contentBar"; "credibilityScore"; "credibilityBar"; "brandScore";
   "brandBar"; "followers"; "avgLikes"; "avgComments"; "engagementRate"; "postsCount";
   "brandsCount"; "numImages"; "numCarousels"; "numVideos"; "results"].

Lemma required_ids_writes (data : AnalysisResult) (d : document) :
  has_ids (required_ids data) d <-> has_ids (map fst (render_writes data)) d.
Proof.
  split; apply has_ids_incl; intros k Hk; revert Hk; unfold required_ids; render_cases data; intros Hk;
    in_cases Hk ltac:(fun Hkv => rewrite <- Hkv; simpl; repeat (first [left; reflexivity | right])).
Qed.

(** C2: [displayResults] completes without throwing exactly when the
    page has every element it writes: the fixed slots, and a badge only
    when the profile's flag for it is set.  Any other missing element
    makes it throw. *)
Theorem displayResults_ok (data : AnalysisResult) (d : document) :
  fst (displayResults data d) = Normal tt <-> has_ids (required_ids data) d.
Proof.
  rewrite displayResults_writes, required_ids_writes. split; [apply run_writes_normal |].
  intros H. rewrite run_writes_ok by exact H. reflexivity.
Qed.

(** C6: A page without the [results] section: every other write of the
    render is done, then the last line throws the TypeError of reading
    [style] of [null]; the partial render stays on the page. *)
Theorem displayResults_missing_results (data : AnalysisResult) (d : document) :
  has_ids (removelast page_ids) d -> d !! "results" = None ->
  displayResults data d = (Throw "Cannot read properties of null (reading 'style')", final (render_body data) d).
Proof.
  intros H Hr. rewrite displayResults_writes. unfold render_writes. apply run_writes_missing; [| exact Hr].
  unfold has_ids in *. rewrite List.Forall_forall in *. intros k Hk. apply H.
  unfold render_body in Hk. destruct (is_verified (profile data)), (is_business (profile data));
    in_cases Hk ltac:(fun Hkv => rewrite <- Hkv; unfold removelast, page_ids; simpl; repeat (first [left; reflexivity | right])).
Qed.

(** C1: After a render every text slot holds the text of the view model. *)
Theorem displayResults_text (data : AnalysisResult) (d : document) :
  has_ids page_ids d ->
  Forall (fun kv => textContent <$> snd (displayResults data d) !! kv.1 = Some kv.2) (text_view data).
Proof.
  intros H. rewrite render_final by exact H. cbn [snd]. apply List.Forall_forall.
  intros [k v] Hin. change textContent with (get_field FText). cbn [fst snd].
  destruct (has_ids_lookup _ d k H (text_view_ids data k v Hin)) as [e He].
  rewrite (final_field FText _ d k e He). f_equal. apply render_text_after, Hin.
Qed.

(** C4: The picture, the tier badge's class, the gauge's colour and the
    section's visibility. *)
Theorem displayResults_view (data : AnalysisResult) (d : document) :
  has_ids page_ids d ->
  let d' := snd (displayResults data d) in
  src <$> d' !! "profilePic" = Some (profile_pic (profile data)) /\
  className <$> d' !! "scoreTier" = Some (tierBadgeClassName (tier (score data))) /\
  stroke <$> d' !! "scoreCircle" = Some (gaugeColor (total_score (score data))) /\
  display <$> d' !! "results" = Some "block".
Proof.
  intros H. rewrite render_final by exact H. cbn [snd].
  change src with (get_field FSrc). change className with (get_field FClass).
  change stroke with (get_field FStroke). change display with (get_field FDisplay).
  render_cases data; (split; [read_slot H FSrc | split; [read_slot H FClass | split; [read_slot H FStroke | read_slot H FDisplay]]]).
Qed.

(** A badge whose flag is false is not touched: it keeps whatever the
    previous render left. *)
Lemma displayResults_badge_untouched (data : AnalysisResult) (d : document) :
  has_ids page_ids d -> is_verified (profile data) = false ->
  snd (displayResults data d) !! "verifiedBadge" = d !! "verifiedBadge".
Proof.
  intros H Hv. rewrite render_final by exact H. cbn [snd]. apply final_untouched.
  unfold render_writes, render_body. rewrite Hv. destruct (is_business (profile data));
    repeat constructor; simpl; discriminate.
Qed.

(** C3: The verified badge of an earlier verified profile stays shown
    when a profile that is not verified is rendered next. *)
Theorem displayResults_stale_badge (data1 data2 : AnalysisResult) (d : document) :
  has_ids page_ids d -> is_verified (profile data1) = true -> is_verified (profile data2) = false ->
  display <$> snd (displayResults data2 (snd (displayResults data1 d))) !! "verifiedBadge" = Some "inline-block".
Proof.
  intros H H1 H2. rewrite displayResults_badge_untouched; [| | exact H2].
  - rewrite render_final by exact H. cbn [snd]. change display with (get_field FDisplay).
    unfold render_writes, render_body. rewrite H1. destruct (is_business (profile data1)); read_slot H FDisplay.
  - rewrite render_final by exact H. cbn [snd]. apply (has_ids_dom _ d); [apply final_dom | exact H].
Qed.

(** ** The renderer's contract with the submit handler

    What the handler needs of the function its [try] block calls on a
    successful reply (line 33): the elements it writes, that on a page
    with them it runs to the end as a list of writes, that it shows the
    results and leaves the error box alone, and the text each slot of
    the view model receives.  The handler's theorems are proved against
    this class; [displayResults] is its instance. *)
Class RenderContract (render : AnalysisResult -> St document unit) : Type := {
  contract_ids : list string;
  contract_writes : AnalysisResult -> list (string * write);
  contract_run : forall data d, has_ids contract_ids d -> render data d = (Normal tt, final (contract_writes data) d);
  contract_text_ids : forall data k v, In (k, v) (text_view data) -> In k contract_ids;
  contract_text : forall data k v old, In (k, v) (text_view data) -> field_after FText k (contract_writes data) old = v;
  contract_shows : forall data old, field_after FDisplay "results" (contract_writes data) old = "block";
  contract_error_alone : forall data old, field_after FDisplay "error" (contract_writes data) old = old
}.

#[export] Instance displayResults_contract : RenderContract displayResults.
Proof.
  refine {| contract_ids := page_ids; contract_writes := render_writes |}.
  - exact render_final.
  - exact text_view_ids.
  - exact render_text_after.
  - intros data old. unfold render_writes. rewrite field_after_app. reflexivity.
  - intros data old. render_cases data; reflexivity.
Defined.

(** ** Instances on a concrete page *)

Definition sample_breakdown : ScoreBreakdown := mkBreakdown (of_Z 28) (of_Z 20) (of_Z 12) (of_Z 9) (of_Z 3).

Definition sample_result (verified : bool) : AnalysisResult :=
  mkResult "jdoe"
    (mkProfile "https://example.com/p.jpg" (Some "Jane Doe") "Fashion" verified false (of_Z 15320) (of_Z 418))
    (mkEngagement (of_Z 1250) (of_Z 45) (of_Z 8))
    (mkContent (of_Z 3) (of_Z 6) (of_Z 2) (of_Z 4))
    (mkScore (of_Z 72) "Elite Pro" sample_breakdown).

Ltac page_ids_hold := apply has_idsb_sound; vm_compute; reflexivity.

Lemma displayResults_ok_witness :
  has_ids (required_ids (sample_result false)) (delete "verifiedBadge" (page_of page_ids)) /\
  fst (displayResults (sample_result false) (delete "verifiedBadge" (page_of page_ids))) = Normal tt.
Proof.
  split; [page_ids_hold |]. apply (proj2 (displayResults_ok _ _)). page_ids_hold.
Defined.

Lemma displayResults_missing_results_witness :
  has_ids (removelast page_ids) (delete "results" (page_of page_ids)) /\
  delete "results" (page_of page_ids) !! "results" = None /\
  displayResults (sample_result true) (delete "results" (page_of page_ids)) =
    (Throw "Cannot read properties of null (reading 'style')",
     final (render_body (sample_result true)) (delete "results" (page_of page_ids))).
Proof.
  split; [page_ids_hold |]. split; [vm_compute; reflexivity |].
  apply displayResults_missing_results; [page_ids_hold | vm_compute; reflexivity].
Defined.

Lemma displayResults_text_witness :
  has_ids page_ids (page_of page_ids) /\
  Forall (fun kv => textContent <$> snd (displayResults (sample_result true) (page_of page_ids)) !! kv.1 = Some kv.2)
         (text_view (sample_result true)).
Proof. split; [page_ids_hold | apply displayResults_text; page_ids_hold]. Defined.

Lemma displayResults_view_witness :
  has_ids page_ids (page_of page_ids) /\
  display <$> snd (displayResults (sample_result false) (page_of page_ids)) !! "results" = Some "block".
Proof. split; [page_ids_hold | apply displayResults_view; page_ids_hold]. Defined.

Lemma displayResults_stale_badge_witness :
  has_ids page_ids (page_of page_ids) /\
  display <$> snd (displayResults (sample_result false) (snd (displayResults (sample_result true) (page_of page_ids))))
    !! "verifiedBadge" = Some "inline-block".
Proof. split; [page_ids_hold | apply displayResults_stale_badge; [page_ids_hold | reflexivity | reflexivity]]. Defined.
