(* ===== verification/Controller.v ===== *)
(** * The submit handler: one analysis request ([script.js], lines 1-43)

    The handler is asynchronous: its synchronous part ([handler_start],
    lines 2-19) marks the UI busy and calls [fetch]; it resumes when the
    reply arrives ([handler_finish], lines 19-42), handles it inside
    [try]/[catch]/[finally], and renders or shows the error.  Between
    the two parts other events run.  The controller is a step relation on
    the document and the list of requests in flight: a submission, or
    the reply to any request in flight, in any order.  The only guard
    against a second submission is the disabled button, which the
    relation takes as a parameter [may_submit].

    The second half is written for any renderer ([handler_finish_with])
    and its lemmas are proved in the section [Contract] against the
    class [RenderContract] of [Render]; [handler_finish] is it applied
    to [displayResults], as line 33 calls it.  The invariant of the
    relation ([ctrl_inv]) gives single flight under the button's guard;
    a concrete session shows the race without it. *)

From Stdlib Require Import ZArith QArith String List Lia.
From stdpp Require Import gmap strings.
From S2P Require Import Prelude Binary64 JsNumber JsString Dom Render.
Local Open Scope string_scope.
Local Open Scope js_scope.

Definition btn_text_id : string := "analyzeBtn .btn-text".  (* [btn.querySelector('.btn-text')] *)
Definition loader_id : string := "analyzeBtn .loader".      (* [btn.querySelector('.loader')] *)

(** Lines 4-16, up to the call of [fetch]: the username to send. *)
Definition handler_start : St document string :=
  let* u := read_value "username" in
  require_element "analyzeBtn" "querySelector" ;;
  set_display "error" "none" ;;
  set_display "results" "none" ;;
  set_disabled "analyzeBtn" true ;;
  set_text btn_text_id "Analyzing..." ;;
  set_display loader_id "inline-block" ;;
  ret (trim u).

(** What [fetch] and [response.json()] deliver. *)
Inductive reply_body : Type :=
| BodyResult (data : AnalysisResult)   (* a body of the AnalysisResult shape *)
| BodyError (error : option string)    (* [{"error": ...}], the field possibly absent *)
| BodyInvalid (msg : string).          (* [response.json()] rejects *)

Inductive outcome : Type :=
| NetworkFailure (msg : string)        (* [fetch] rejects *)
| Reply (ok : bool) (body : reply_body).

(** [data.error || 'Failed to analyze'] *)
Definition error_message (err : option string) : string :=
  match err with
  | Some m => if String.eqb m "" then "Failed to analyze" else m
  | None => "Failed to analyze"
  end.

(** Lines 35-37: [catch (error)]. *)
Definition handle_error (msg : string) : St document unit :=
  set_text "error" msg ;; set_display "error" "block".

(** Lines 38-42: [finally]. *)
Definition handle_finally : St document unit :=
  set_disabled "analyzeBtn" false ;; set_text btn_text_id "Analyze" ;; set_display loader_id "none".

Section Reply.
(** The function the [try] block calls on a successful reply (line 33). *)
Variable render : AnalysisResult -> St document unit.

(** Lines 19-33, the [try] block after [fetch] resolved or rejected. *)
Definition handle_reply_with (r : outcome) : St document unit :=
  match r with
  | NetworkFailure msg => throw msg
  | Reply ok body =>
      match body with
      | BodyInvalid msg => throw msg
      | BodyResult data => if ok then render data else throw (error_message None)
      | BodyError err =>
          if ok then throw "Cannot read properties of undefined (reading 'profile_pic')"
          else throw (error_message err)
      end
  end.

(** Lines 18-42: [try] / [catch] / [finally]. *)
Definition handler_finish_with (r : outcome) : St document unit :=
  try_finally (try_catch (handle_reply_with r) handle_error) handle_finally.

End Reply.

(** The handler as written: line 33 calls [displayResults]. *)
Definition handle_reply : outcome -> St document unit := handle_reply_with displayResults.
Definition handler_finish : outcome -> St document unit := handler_finish_with displayResults.

(** ** The controller as a step relation *)

Record request : Type := mkRequest { req_id : nat; req_username : string }.

Record state : Type := mkState {
  dom_of : document;
  inflight : list request;
  next_id : nat
}.

Section Steps.
(** When a submission can happen: always for programmatic submission,
    only with the button enabled for a user. *)
Variable may_submit : document -> Prop.

Inductive step : state -> state -> Prop :=
| step_submit (s : state) (u : string) (d' : document) :
    may_submit (dom_of s) -> handler_start (dom_of s) = (Normal u, d') ->
    step s (mkState d' (app (inflight s) [mkRequest (next_id s) u]) (S (next_id s)))
| step_submit_throw (s : state) (e : string) (d' : document) :
    may_submit (dom_of s) -> handler_start (dom_of s) = (Throw e, d') ->
    step s (mkState d' (inflight s) (next_id s))
| step_reply (s : state) (pre post : list request) (q : request) (r : outcome) :
    inflight s = app pre (q :: post) ->
    step s (mkState (snd (handler_finish r (dom_of s))) (app pre post) (next_id s)).

Inductive star : state -> state -> Prop :=
| star_refl (s : state) : star s s
| star_step (s1 s2 s3 : state) : step s1 s2 -> star s2 s3 -> star s1 s3.

End Steps.

(** The button is enabled: a user can submit. *)
Definition btn_enabled (d : document) : Prop :=
  exists e, d !! "analyzeBtn" = Some e /\ disabled e = false.

(** ** The two halves of the handler as sequences of writes *)

(** The elements the handler itself reads and writes. *)
Definition base_ids : list string :=
  ["username"; "analyzeBtn"; btn_text_id; loader_id; "error"; "results"].

Definition ctrl_ids : list string := base_ids ++ page_ids.

Definition start_writes : list (string * write) :=
  [("error", WDisplay "none"); ("results", WDisplay "none"); ("analyzeBtn", WDisabled true);
   (btn_text_id, WText "Analyzing..."); (loader_id, WDisplay "inline-block")].

Definition error_writes (msg : string) : list (string * write) :=
  [("error", WText msg); ("error", WDisplay "block")].

Definition finally_writes : list (string * write) :=
  [("analyzeBtn", WDisabled false); (btn_text_id, WText "Analyze"); (loader_id, WDisplay "none")].

(** The message a failed reply shows. *)
Definition reply_message (r : outcome) : string :=
  match r with
  | NetworkFailure msg => msg
  | Reply ok body =>
      match body with
      | BodyInvalid msg => msg
      | BodyResult _ => error_message None
      | BodyError err => if ok then "Cannot read properties of undefined (reading 'profile_pic')"
                         else error_message err
      end
  end.

(** The result a successful reply renders. *)
Definition success_of (r : outcome) : option AnalysisResult :=
  match r with
  | Reply true (BodyResult data) => Some data
  | _ => None
  end.

Lemma ctrl_lookup (d : document) (k : string) :
  has_ids ctrl_ids d -> In k ctrl_ids -> exists e, d !! k = Some e.
Proof. apply has_ids_lookup. Qed.

Ltac in_ids := unfold ctrl_ids, base_ids, page_ids, btn_text_id, loader_id; simpl;
  repeat (first [left; reflexivity | right]).

(** The first half of the handler after its two reads: the five writes
    of lines 12-16, then the username. *)
Lemma handler_start_writes (d : document) (e : element) :
  d !! "username" = Some e -> is_Some (d !! "analyzeBtn") ->
  handler_start d = match run_writes start_writes d with
                    | (Normal _, d') => (Normal (trim (value e)), d')
                    | (Throw m, d') => (Throw m, d')
                    end.
Proof.
  intros Hu [eb Hb]. unfold handler_start, bind, read_value, require_element. rewrite Hu, Hb.
  cbn [run_writes start_writes]. unfold bind, set_display, set_disabled, set_text.
  destruct (set_write "error" _ d) as [[[]|?] d1]; [| reflexivity].
  destruct (set_write "results" _ d1) as [[[]|?] d2]; [| reflexivity].
  destruct (set_write "analyzeBtn" _ d2) as [[[]|?] d3]; [| reflexivity].
  destruct (set_write btn_text_id _ d3) as [[[]|?] d4]; [| reflexivity].
  destruct (set_write loader_id _ d4) as [[[]|?] d5]; reflexivity.
Qed.

Lemma handler_start_run (d : document) :
  has_ids ctrl_ids d ->
  exists e, d !! "username" = Some e /\ handler_start d = (Normal (trim (value e)), final start_writes d).
Proof.
  intros H. destruct (ctrl_lookup d "username" H ltac:(in_ids)) as [eu Hu].
  exists eu. split; [exact Hu |].
  assert (Hw : has_ids (map fst start_writes) d).
  { unfold has_ids. apply List.Forall_forall. intros k Hk. simpl in Hk.
    unfold has_ids in H. rewrite List.Forall_forall in H. apply H.
    repeat (destruct Hk as [<- | Hk]; [in_ids |]); contradiction. }
  rewrite (handler_start_writes d eu Hu (ctrl_lookup d "analyzeBtn" H ltac:(in_ids))), run_writes_ok by exact Hw.
  reflexivity.
Qed.

Lemma ctrl_ids_final (ws : list (string * write)) (d : document) :
  has_ids ctrl_ids d -> has_ids ctrl_ids (final ws d).
Proof. apply has_ids_dom, final_dom. Qed.

Lemma handle_error_writes (msg : string) : st_eq (handle_error msg) (run_writes (error_writes msg)).
Proof. unfold handle_error, error_writes, set_text, set_display. same_writes. Qed.

Lemma handle_finally_writes : st_eq handle_finally (run_writes finally_writes).
Proof. unfold handle_finally, finally_writes, set_text, set_display, set_disabled. same_writes. Qed.

(** ** Reading the page after the handler *)

(** Property [f] of element [k] holds [v]. *)
Definition prop_is (d : document) (k : string) (f : field) (v : string) : Prop :=
  get_field f <$> d !! k = Some v.

(** The button's [disabled] flag is [b]. *)
Definition btn_disabled (d : document) (b : bool) : Prop :=
  disabled <$> d !! "analyzeBtn" = Some b.

Lemma prop_is_final (ws : list (string * write)) (d : document) (k : string) (f : field) (old v : string) :
  prop_is d k f old -> field_after f k ws old = v -> prop_is (final ws d) k f v.
Proof.
  unfold prop_is. intros H <-. destruct (d !! k) as [e|] eqn:He; [| discriminate].
  injection H as <-. apply final_field, He.
Qed.

Lemma prop_is_some (d : document) (k : string) (f : field) :
  is_Some (d !! k) -> exists old, prop_is d k f old.
Proof. intros [e He]. exists (get_field f e). unfold prop_is. rewrite He. reflexivity. Qed.

Lemma btn_disabled_final (ws : list (string * write)) (d : document) (b v : bool) :
  btn_disabled d b -> disabled_after "analyzeBtn" ws b = v -> btn_disabled (final ws d) v.
Proof.
  unfold btn_disabled. intros H <-. destruct (d !! "analyzeBtn") as [e|] eqn:He; [| discriminate].
  injection H as <-. apply final_disabled, He.
Qed.

Lemma btn_disabled_some (d : document) :
  is_Some (d !! "analyzeBtn") -> exists b, btn_disabled d b.
Proof. intros [e He]. exists (disabled e). unfold btn_disabled. rewrite He. reflexivity. Qed.

Lemma btn_disabled_unique (d : document) (b1 b2 : bool) :
  btn_disabled d b1 -> btn_disabled d b2 -> b1 = b2.
Proof. unfold btn_disabled. intros -> H. injection H as ->. reflexivity. Qed.

(** The handler's own elements are on a page that has [base_ids]. *)
Lemma base_lookup (ids : list string) (d : document) (k : string) :
  has_ids (base_ids ++ ids) d -> In k base_ids -> is_Some (d !! k).
Proof. intros H Hk. apply (has_ids_lookup _ d k H), in_or_app. left. exact Hk. Qed.

Ltac in_base := unfold base_ids, btn_text_id, loader_id; simpl; repeat (first [left; reflexivity | right]).

(** A property of one of the handler's elements that the writes overwrite. *)
Ltac overwritten H :=
  match goal with
  | |- prop_is (final _ _) ?k ?f _ =>
      let old := fresh "old" in let Hold := fresh "Hold" in
      destruct (prop_is_some _ k f (base_lookup _ _ k H ltac:(in_base))) as [old Hold];
      apply (prop_is_final _ _ _ _ old); [exact Hold |]
  | |- btn_disabled (final _ _) _ =>
      let old := fresh "old" in let Hold := fresh "Hold" in
      destruct (btn_disabled_some _ (base_lookup _ _ "analyzeBtn" H ltac:(in_base))) as [old Hold];
      apply (btn_disabled_final _ _ old); [exact Hold |]
  end.

(** The page while a request is in flight: the button disabled and
    showing the loader, the error and the results hidden. *)
Definition busy_view (d : document) : Prop :=
  btn_disabled d true /\ prop_is d btn_text_id FText "Analyzing..." /\
  prop_is d loader_id FDisplay "inline-block" /\
  prop_is d "error" FDisplay "none" /\ prop_is d "results" FDisplay "none".

Lemma start_busy (d : document) : has_ids ctrl_ids d -> busy_view (final start_writes d).
Proof. intros H. repeat split; overwritten H; reflexivity. Qed.

(** A text slot of the view model is not among the writes of [finally]. *)
Lemma finally_keeps_text (data : AnalysisResult) (k v : string) :
  In (k, v) (text_view data) -> field_after FText k finally_writes v = v.
Proof. intros Hin. unfold text_view in Hin. in_cases Hin ltac:(fun Hkv => injection Hkv as <- <-; reflexivity). Qed.

(** Every reply but a successful result throws its message at once. *)
Lemma handle_reply_throws (render : AnalysisResult -> St document unit) (r : outcome) (d : document) :
  success_of r = None -> handle_reply_with render r d = (Throw (reply_message r), d).
Proof. destruct r as [msg | [|] [data | err | msg]]; simpl; intros H; try discriminate H; reflexivity. Qed.

Lemma handle_reply_success (render : AnalysisResult -> St document unit) (r : outcome) (data : AnalysisResult) :
  success_of r = Some data -> handle_reply_with render r = render data.
Proof. destruct r as [msg | [|] [data' | err | msg]]; simpl; intros H; try discriminate H; injection H as ->; reflexivity. Qed.

(** ** The second half of the handler, against the renderer's contract *)

Section Contract.
Context (render : AnalysisResult -> St document unit) `{RC : RenderContract render}.

(** The elements the handler needs with this renderer. *)
Definition handler_ids : list string := base_ids ++ contract_ids.

(** The writes of the [try] and [catch] blocks for reply [r]. *)
Definition reply_writes_with (r : outcome) : list (string * write) :=
  match success_of r with
  | Some data => contract_writes data
  | None => error_writes (reply_message r)
  end.

Lemma handler_ids_final (ws : list (string * write)) (d : document) :
  has_ids handler_ids d -> has_ids handler_ids (final ws d).
Proof. apply has_ids_dom, final_dom. Qed.

Lemma base_run (ws : list (string * write)) (d : document) :
  incl (map fst ws) base_ids -> has_ids handler_ids d -> run_writes ws d = (Normal tt, final ws d).
Proof.
  intros Hi H. apply run_writes_ok. unfold has_ids. apply List.Forall_forall. intros k Hk.
  apply (base_lookup _ _ k H), Hi, Hk.
Qed.

Ltac incl_base := let k := fresh "k" in let Hk := fresh "Hk" in
  intros k Hk; simpl in Hk; repeat (destruct Hk as [<- | Hk]; [in_base |]); contradiction.

(** On a page with the elements: the writes of the reply, then those of
    [finally]; nothing escapes. *)
Lemma handler_finish_with_run (r : outcome) (d : document) :
  has_ids handler_ids d ->
  handler_finish_with render r d = (Normal tt, final (reply_writes_with r ++ finally_writes) d).
Proof.
  intros H. rewrite final_app. unfold handler_finish_with, try_finally, try_catch, reply_writes_with.
  assert (Hfin : forall d', has_ids handler_ids d' -> handle_finally d' = (Normal tt, final finally_writes d')).
  { intros d' H'. rewrite handle_finally_writes. apply base_run; [incl_base | exact H']. }
  destruct (success_of r) as [data |] eqn:Es.
  - rewrite (handle_reply_success render r data Es), contract_run.
    + rewrite Hfin by (apply handler_ids_final; exact H). reflexivity.
    + apply (has_ids_incl _ handler_ids); [intros k Hk; apply in_or_app; right; exact Hk | exact H].
  - rewrite handle_reply_throws by exact Es. rewrite handle_error_writes, base_run by (incl_base || exact H).
    rewrite Hfin by (apply handler_ids_final; exact H). reflexivity.
Qed.

Lemma finish_enabled (r : outcome) (d : document) :
  has_ids handler_ids d -> btn_disabled (final (reply_writes_with r ++ finally_writes) d) false.
Proof. intros H. overwritten H. rewrite disabled_after_app. reflexivity. Qed.

Lemma finish_with_error (r : outcome) (d : document) :
  has_ids handler_ids d -> busy_view d -> success_of r = None ->
  let d' := snd (handler_finish_with render r d) in
  fst (handler_finish_with render r d) = Normal tt /\
  prop_is d' "error" FText (reply_message r) /\ prop_is d' "error" FDisplay "block" /\
  prop_is d' "results" FDisplay "none" /\ btn_disabled d' false.
Proof.
  intros H (_ & _ & _ & _ & Hres) Es. rewrite handler_finish_with_run by exact H. cbn [fst snd].
  split; [reflexivity |]. split; [| split; [| split]].
  - overwritten H. unfold reply_writes_with. rewrite Es. reflexivity.
  - overwritten H. unfold reply_writes_with. rewrite Es. reflexivity.
  - apply (prop_is_final _ _ _ _ "none" _ Hres). unfold reply_writes_with. rewrite Es. reflexivity.
  - apply finish_enabled, H.
Qed.

Lemma finish_with_success (r : outcome) (data : AnalysisResult) (d : document) :
  has_ids handler_ids d -> busy_view d -> success_of r = Some data ->
  let d' := snd (handler_finish_with render r d) in
  Forall (fun kv => prop_is d' kv.1 FText kv.2) (text_view data) /\
  prop_is d' "results" FDisplay "block" /\ prop_is d' "error" FDisplay "none" /\ btn_disabled d' false.
Proof.
  intros H (_ & _ & _ & Herr & _) Es. rewrite handler_finish_with_run by exact H. cbn [snd].
  split; [| split; [| split]]; [| | | apply finish_enabled, H]; unfold reply_writes_with; rewrite Es.
  - apply List.Forall_forall. intros [k v] Hin. cbn [fst snd].
    assert (Hk : is_Some (d !! k)).
    { apply (has_ids_lookup _ d k H), in_or_app. right. apply (contract_text_ids data k v Hin). }
    destruct (prop_is_some _ k FText Hk) as [old Hold]. apply (prop_is_final _ _ _ _ old _ Hold).
    rewrite field_after_app, (contract_text data k v old Hin). apply (finally_keeps_text data), Hin.
  - overwritten H. rewrite field_after_app, contract_shows. reflexivity.
  - apply (prop_is_final _ _ _ _ "none" _ Herr). rewrite field_after_app, contract_error_alone. reflexivity.
Qed.

(** The [finally] block restores the button, whatever came before. *)
Lemma finish_with_restores (r : outcome) (d : document) :
  has_ids handler_ids d ->
  let d' := snd (handler_finish_with render r d) in
  btn_disabled d' false /\ prop_is d' btn_text_id FText "Analyze" /\ prop_is d' loader_id FDisplay "none".
Proof.
  intros H. rewrite handler_finish_with_run by exact H. cbn [snd].
  split; [apply finish_enabled, H |]. split; overwritten H; rewrite field_after_app; reflexivity.
Qed.

End Contract.

(** [displayResults] needs the page ids: with it, the handler's
    elements are [ctrl_ids]. *)
Lemma handler_finish_run (r : outcome) (d : document) :
  has_ids ctrl_ids d ->
  handler_finish r d = (Normal tt, final (reply_writes_with displayResults r ++ finally_writes) d).
Proof. exact (handler_finish_with_run displayResults r d). Qed.

(** ** Theorems of the handler *)

(** C26: The first half of the handler on a page with its elements: it
    reads the username field, trims it, and leaves the page in the busy
    state; the value it resolves to is the body's [username]. *)
Theorem handler_start_sends_trimmed (d : document) (e : element) :
  has_ids ctrl_ids d -> d !! "username" = Some e ->
  handler_start d = (Normal (trim (value e)), final start_writes d) /\ busy_view (final start_writes d).
Proof.
  intros H He. split; [| apply start_busy, H].
  destruct (handler_start_run d H) as [e' [He' Hrun]]. rewrite He in He'. injection He' as <-. exact Hrun.
Qed.

(** C27: Without the button, line 6 throws before any write: the page is
    unchanged and no request is sent. *)
Theorem handler_start_no_button (d : document) (e : element) :
  d !! "username" = Some e -> d !! "analyzeBtn" = None ->
  handler_start d = (Throw "Cannot read properties of null (reading 'querySelector')", d).
Proof. intros He Hb. unfold handler_start, bind, read_value, require_element. rewrite He, Hb. reflexivity. Qed.

(** C23: A reply that is not a successful result (a network failure, an
    unreadable body, a status that is not ok, or an ok status with an
    error-shaped body): the error box shows the message and the results
    stay hidden; the handler itself completes. *)
Theorem handler_finish_error (r : outcome) (d : document) :
  has_ids ctrl_ids d -> busy_view d -> success_of r = None ->
  let d' := snd (handler_finish r d) in
  fst (handler_finish r d) = Normal tt /\
  prop_is d' "error" FText (reply_message r) /\ prop_is d' "error" FDisplay "block" /\
  prop_is d' "results" FDisplay "none" /\ btn_disabled d' false.
Proof. exact (finish_with_error displayResults r d). Qed.

(** C22: A successful reply: every text slot shows the view model of the
    result, the results are shown and the error box stays hidden. *)
Theorem handler_finish_success (r : outcome) (data : AnalysisResult) (d : document) :
  has_ids ctrl_ids d -> busy_view d -> success_of r = Some data ->
  let d' := snd (handler_finish r d) in
  Forall (fun kv => prop_is d' kv.1 FText kv.2) (text_view data) /\
  prop_is d' "results" FDisplay "block" /\ prop_is d' "error" FDisplay "none" /\ btn_disabled d' false.
Proof. exact (finish_with_success displayResults r data d). Qed.

(** C24: Whatever the reply, the [finally] block runs: the button is
    enabled again, its label restored and the loader hidden. *)
Theorem handler_finish_restores (r : outcome) (d : document) :
  has_ids ctrl_ids d ->
  let d' := snd (handler_finish r d) in
  btn_disabled d' false /\ prop_is d' btn_text_id FText "Analyze" /\ prop_is d' loader_id FDisplay "none".
Proof. exact (finish_with_restores displayResults r d). Qed.

(** ** The controller's invariant *)

(** At most one request in flight, and the button disabled exactly while
    it is: idle with the button enabled, or one request and the busy view. *)
Definition ctrl_inv (s : state) : Prop :=
  has_ids ctrl_ids (dom_of s) /\
  ((inflight s = [] /\ btn_disabled (dom_of s) false) \/
   (exists q, inflight s = [q] /\ busy_view (dom_of s))).

Lemma singleton_split (pre post : list request) (q q' : request) :
  app pre (q :: post) = [q'] -> pre = [] /\ post = [].
Proof. destruct pre as [|p [|]]; simpl; intros Hq; injection Hq as -> ?; [split; auto | |]; discriminate. Qed.

Lemma btn_enabled_disabled (d : document) : btn_enabled d -> btn_disabled d false.
Proof. intros [e [He Hd]]. unfold btn_disabled. rewrite He. simpl. rewrite Hd. reflexivity. Qed.

Lemma ctrl_inv_step (s s' : state) : ctrl_inv s -> step btn_enabled s s' -> ctrl_inv s'.
Proof.
  intros [H Hv] Hs. destruct Hs as [s u d' Hen Hst | s e d' Hen Hst | s pre post q r Hin]; cbn [dom_of inflight].
  - destruct (handler_start_run _ H) as [eu [_ Hrun]]. rewrite Hst in Hrun.
    apply (f_equal snd) in Hrun. cbn [snd] in Hrun. subst d'. cbn [dom_of inflight].
    split; [apply ctrl_ids_final, H |]. right.
    destruct Hv as [[-> _] | [q [_ [Hb _]]]].
    + eexists. split; [reflexivity | apply start_busy, H].
    + pose proof (btn_disabled_unique _ _ _ Hb (btn_enabled_disabled _ Hen)). discriminate.
  - destruct (handler_start_run _ H) as [eu [_ Hrun]]. rewrite Hst in Hrun. discriminate.
  - rewrite handler_finish_run by exact H. cbn [snd]. split; [apply ctrl_ids_final, H |]. left.
    destruct Hv as [[Hn _] | [q' [Hq _]]].
    + rewrite Hn in Hin. destruct pre; discriminate.
    + rewrite Hq in Hin. symmetry in Hin. destruct (singleton_split _ _ _ _ Hin) as [-> ->].
      split; [reflexivity | apply finish_enabled, H].
Qed.

Lemma ctrl_inv_star (s s' : state) : star btn_enabled s s' -> ctrl_inv s -> ctrl_inv s'.
Proof. induction 1 as [s | s1 s2 s3 H12 _ IH]; intros Hi; [exact Hi | apply IH, (ctrl_inv_step s1); assumption]. Qed.

(** C5: Single flight: from a page that satisfies the invariant, a user
    who can only submit with the enabled button never has two requests
    in flight, and the button is disabled exactly while one is. *)
Theorem ctrl_single_flight (s0 s : state) :
  ctrl_inv s0 -> star btn_enabled s0 s ->
  (length (inflight s) <= 1)%nat /\ (btn_disabled (dom_of s) true <-> inflight s <> []).
Proof.
  intros H0 Hst. destruct (ctrl_inv_star _ _ Hst H0) as [_ [[-> Hb] | [q [-> [Hb _]]]]]; simpl.
  - split; [lia |]. split; [intros Ht; pose proof (btn_disabled_unique _ _ _ Hb Ht); discriminate | congruence].
  - split; [lia |]. split; [discriminate | intros _; exact Hb].
Qed.

(** ** The specification's state machine

    Section 4.2 of the specification: [Idle -> Submitting ->
    {Success -> Idle, Failure -> Idle}], where submitting hides the
    previous outcome, a success shows the results and a failure shows
    the error with the results hidden.  The abstract state is the phase
    and which of the two sections is shown. *)
Inductive phase : Type := Idle | Submitting.

Record abs_state : Type := mkAbs { abs_phase : phase; abs_results : bool; abs_error : bool }.

Inductive spec_step : abs_state -> abs_state -> Prop :=
| spec_submit (r e : bool) : spec_step (mkAbs Idle r e) (mkAbs Submitting false false)
| spec_success : spec_step (mkAbs Submitting false false) (mkAbs Idle true false)
| spec_failure : spec_step (mkAbs Submitting false false) (mkAbs Idle false true).

Definition phase_of (s : state) : phase :=
  match inflight s with
  | [] => Idle
  | _ => Submitting
  end.

(** Element [k] is displayed as a block. *)
Definition shown (d : document) (k : string) : bool :=
  match d !! k with
  | Some e => String.eqb (display e) "block"
  | None => false
  end.

Definition abs_of (s : state) : abs_state :=
  mkAbs (phase_of s) (shown (dom_of s) "results") (shown (dom_of s) "error").

Lemma shown_prop (d : document) (k v : string) : prop_is d k FDisplay v -> shown d k = String.eqb v "block".
Proof. unfold prop_is, shown. destruct (d !! k); simpl; [intros H; injection H as <-; reflexivity | discriminate]. Qed.

(** C30: Refinement: under the button's guard, from a state of the
    invariant every step of the handler is a step of the specification's
    machine on the abstract state (a forward simulation with no
    stuttering): a submission goes from idle to submitting with both
    sections hidden, a successful reply to idle with the results shown
    and the error hidden, any other reply to idle with the error shown
    and the results hidden; the invariant is kept. *)
Theorem ctrl_refines_spec (s s' : state) :
  ctrl_inv s -> step btn_enabled s s' -> ctrl_inv s' /\ spec_step (abs_of s) (abs_of s').
Proof.
  intros Hi Hs. split; [apply (ctrl_inv_step s); assumption |].
  destruct Hi as [H [[Hn Hb] | [q [Hq Hbusy]]]].
  - destruct Hs as [s u d' _ Hst | s m d' _ Hst | s pre post q r Hin].
    + destruct (handler_start_run _ H) as [eu [_ Hrun]]. rewrite Hst in Hrun.
      apply (f_equal snd) in Hrun. cbn [snd] in Hrun. subst d'.
      destruct (start_busy _ H) as (_ & _ & _ & He & Hr).
      unfold abs_of, phase_of. cbn [dom_of inflight]. rewrite Hn, (shown_prop _ _ _ He), (shown_prop _ _ _ Hr).
      constructor.
    + destruct (handler_start_run _ H) as [eu [_ Hrun]]. rewrite Hst in Hrun. discriminate.
    + rewrite Hn in Hin. destruct pre; discriminate.
  - destruct Hs as [s u d' Hen _ | s m d' Hen _ | s pre post q' r Hin].
    + destruct Hbusy as [Hb _]. pose proof (btn_disabled_unique _ _ _ Hb (btn_enabled_disabled _ Hen)). discriminate.
    + destruct Hbusy as [Hb _]. pose proof (btn_disabled_unique _ _ _ Hb (btn_enabled_disabled _ Hen)). discriminate.
    + rewrite Hq in Hin. symmetry in Hin. destruct (singleton_split _ _ _ _ Hin) as [-> ->].
      destruct Hbusy as (Hb & Ht & Hl & He & Hr).
      unfold abs_of, phase_of. cbn [dom_of inflight]. rewrite Hq, (shown_prop _ _ _ He), (shown_prop _ _ _ Hr).
      pose proof (H : has_ids (handler_ids displayResults) (dom_of s)) as H'. unfold handler_finish.
      destruct (success_of r) as [data |] eqn:Es.
      * destruct (finish_with_success displayResults r data (dom_of s) H' (conj Hb (conj Ht (conj Hl (conj He Hr)))) Es)
          as (_ & Hr' & He' & _).
        rewrite (shown_prop _ _ _ Hr'), (shown_prop _ _ _ He'). constructor.
      * destruct (finish_with_error displayResults r (dom_of s) H' (conj Hb (conj Ht (conj Hl (conj He Hr)))) Es)
          as (_ & _ & He' & Hr' & _).
        rewrite (shown_prop _ _ _ Hr'), (shown_prop _ _ _ He'). constructor.
Qed.



(** C29: A page whose button lacks its loader: the first half of the
    handler throws at line 16, before [try], after line 14 has disabled
    the button.  No request is sent and [finally] never runs: the
    button stays disabled and, with nothing in flight, no step is left
    to a user. *)
Theorem ctrl_stuck_without_loader (s : state) (e : element) :
  inflight s = [] -> dom_of s !! "username" = Some e ->
  has_ids ["error"; "results"; "analyzeBtn"; btn_text_id] (dom_of s) -> dom_of s !! loader_id = None ->
  btn_enabled (dom_of s) ->
  exists s', step btn_enabled s s' /\ btn_disabled (dom_of s') true /\ forall s'', ~ step btn_enabled s' s''.
Proof.
  intros Hn Hu Hids Hl Hen.
  assert (Hst : handler_start (dom_of s) =
                (Throw "Cannot read properties of null (reading 'style')", final (firstn 4 start_writes) (dom_of s))).
  { rewrite (handler_start_writes _ e Hu (has_ids_lookup _ _ "analyzeBtn" Hids ltac:(simpl; auto))).
    change start_writes with (app (firstn 4 start_writes) ((loader_id, WDisplay "inline-block") :: [])).
    rewrite run_writes_missing by assumption. reflexivity. }
  assert (Hb : btn_disabled (final (firstn 4 start_writes) (dom_of s)) true).
  { apply (btn_disabled_final _ _ false); [apply btn_enabled_disabled, Hen | reflexivity]. }
  exists (mkState (final (firstn 4 start_writes) (dom_of s)) (inflight s) (next_id s)).
  split; [eapply step_submit_throw; [exact Hen | exact Hst] |]. split; [exact Hb |].
  intros s'' Hs. inversion Hs as [? u d' Hen' _ | ? m d' Hen' _ | ? pre post q r Hin]; subst; cbn [dom_of inflight] in *.
  - pose proof (btn_disabled_unique _ _ _ Hb (btn_enabled_disabled _ Hen')). discriminate.
  - pose proof (btn_disabled_unique _ _ _ Hb (btn_enabled_disabled _ Hen')). discriminate.
  - rewrite Hn in Hin. destruct pre; discriminate.
Qed.

(** ** A concrete session *)

(** The page as served: every element present, the button enabled, the
    username field holding a name with surrounding blanks. *)
Definition sample_page : document :=
  <["username" := mkElement "" "" "" "" "" "" "" false "  jdoe "]> (page_of ctrl_ids).

Definition init_state : state := mkState sample_page [] 0.

(** A submission from state [s], whatever the guard. *)
Definition submit_state (s : state) : state :=
  match handler_start (dom_of s) with
  | (Normal u, d') => mkState d' (app (inflight s) [mkRequest (next_id s) u]) (S (next_id s))
  | (Throw _, d') => mkState d' (inflight s) (next_id s)
  end.

(** The reply [r] to the request between [pre] and [post]. *)
Definition reply_at (pre post : list request) (r : outcome) (s : state) : state :=
  mkState (snd (handler_finish r (dom_of s))) (app pre post) (next_id s).

Lemma step_submit_state (may_submit : document -> Prop) (s : state) :
  may_submit (dom_of s) -> step may_submit s (submit_state s).
Proof.
  intros Hm. unfold submit_state. destruct (handler_start (dom_of s)) as [[u|e] d'] eqn:E.
  - apply step_submit; assumption.
  - eapply step_submit_throw; eassumption.
Qed.

Lemma init_inv : ctrl_inv init_state.
Proof.
  split; [apply has_idsb_sound; vm_compute; reflexivity |]. left. split; [reflexivity | vm_compute; reflexivity].
Qed.

(** Two submissions, the later one failing first, then the earlier one
    succeeding. *)
Definition race_mid : state :=
  reply_at [mkRequest 0 "jdoe"] [] (NetworkFailure "Failed to fetch") (submit_state (submit_state init_state)).

Definition race_end : state :=
  reply_at [] [] (Reply true (BodyResult (sample_result true))) race_mid.

(** C25: Without the button's guard (a programmatic submission), two
    requests can be in flight: after the later one fails the button is
    enabled while the earlier one is still pending, and when that one
    succeeds the page shows the error and the results together. *)
Theorem ctrl_race :
  star (fun _ => True) init_state race_mid /\ inflight race_mid <> [] /\ btn_disabled (dom_of race_mid) false /\
  star (fun _ => True) race_mid race_end /\
  prop_is (dom_of race_end) "error" FDisplay "block" /\ prop_is (dom_of race_end) "results" FDisplay "block".
Proof.
  split; [| split; [vm_compute; discriminate | split; [vm_compute; reflexivity | split]]].
  - eapply star_step; [apply step_submit_state; exact I |].
    eapply star_step; [apply step_submit_state; exact I |].
    eapply star_step; [| apply star_refl].
    apply (step_reply _ _ [mkRequest 0 "jdoe"] [] (mkRequest 1 "jdoe")). vm_compute. reflexivity.
  - eapply star_step; [| apply star_refl].
    apply (step_reply _ _ [] [] (mkRequest 0 "jdoe")). vm_compute. reflexivity.
  - split; vm_compute; reflexivity.
Qed.

(** ** Instances of the controller's theorems on the concrete session *)

Definition username_element : element := mkElement "" "" "" "" "" "" "" false "  jdoe ".

Ltac ctrl_ids_hold := apply has_idsb_sound; vm_compute; reflexivity.

Lemma handler_start_sends_trimmed_witness :
  has_ids ctrl_ids sample_page /\ sample_page !! "username" = Some username_element /\
  fst (handler_start sample_page) = Normal "jdoe".
Proof.
  split; [ctrl_ids_hold | split; [vm_compute; reflexivity |]].
  rewrite (proj1 (handler_start_sends_trimmed sample_page username_element ltac:(ctrl_ids_hold) ltac:(vm_compute; reflexivity))).
  reflexivity.
Defined.

Lemma handler_start_no_button_witness :
  delete "analyzeBtn" sample_page !! "username" = Some username_element /\
  delete "analyzeBtn" sample_page !! "analyzeBtn" = None /\
  handler_start (delete "analyzeBtn" sample_page) =
    (Throw "Cannot read properties of null (reading 'querySelector')", delete "analyzeBtn" sample_page).
Proof.
  split; [vm_compute; reflexivity | split; [vm_compute; reflexivity |]].
  apply (handler_start_no_button _ username_element); vm_compute; reflexivity.
Defined.

Definition busy_page : document := final start_writes sample_page.

Ltac busy_holds := repeat split; vm_compute; reflexivity.

Lemma handler_finish_error_witness :
  has_ids ctrl_ids busy_page /\ busy_view busy_page /\
  success_of (Reply false (BodyError (Some "not found"))) = None /\
  prop_is (snd (handler_finish (Reply false (BodyError (Some "not found"))) busy_page)) "error" FText "not found" /\
  prop_is (snd (handler_finish (Reply false (BodyError (Some "not found"))) busy_page)) "results" FDisplay "none".
Proof.
  split; [ctrl_ids_hold | split; [busy_holds | split; [reflexivity |]]].
  destruct (handler_finish_error (Reply false (BodyError (Some "not found"))) busy_page
              ltac:(ctrl_ids_hold) ltac:(busy_holds) eq_refl) as (_ & He & _ & Hr & _).
  split; [exact He | exact Hr].
Defined.

Lemma handler_finish_success_witness :
  has_ids ctrl_ids busy_page /\ busy_view busy_page /\
  success_of (Reply true (BodyResult (sample_result false))) = Some (sample_result false) /\
  prop_is (snd (handler_finish (Reply true (BodyResult (sample_result false))) busy_page)) "results" FDisplay "block".
Proof.
  split; [ctrl_ids_hold | split; [busy_holds | split; [reflexivity |]]].
  destruct (handler_finish_success (Reply true (BodyResult (sample_result false))) (sample_result false) busy_page ltac:(ctrl_ids_hold) ltac:(busy_holds) eq_refl)
    as (_ & Hr & _).
  exact Hr.
Defined.

Lemma handler_finish_restores_witness :
  has_ids ctrl_ids busy_page /\
  btn_disabled (snd (handler_finish (Reply false (BodyError None)) busy_page)) false.
Proof. split; [ctrl_ids_hold | apply (handler_finish_restores _ busy_page); ctrl_ids_hold]. Defined.

Lemma ctrl_single_flight_witness :
  ctrl_inv init_state /\ star btn_enabled init_state (submit_state init_state) /\
  (length (inflight (submit_state init_state)) <= 1)%nat.
Proof.
  assert (Hst : star btn_enabled init_state (submit_state init_state)).
  { eapply star_step; [apply step_submit_state | apply star_refl].
    exists blank_element. split; vm_compute; reflexivity. }
  split; [exact init_inv | split; [exact Hst |]].
  apply (ctrl_single_flight init_state); [exact init_inv | exact Hst].
Defined.


Definition no_loader_page : document := delete loader_id sample_page.

Lemma ctrl_stuck_without_loader_witness :
  inflight (mkState no_loader_page [] 0) = [] /\ no_loader_page !! "username" = Some username_element /\
  has_ids ["error"; "results"; "analyzeBtn"; btn_text_id] no_loader_page /\ no_loader_page !! loader_id = None /\
  btn_enabled no_loader_page /\
  exists s', step btn_enabled (mkState no_loader_page [] 0) s' /\ forall s'', ~ step btn_enabled s' s''.
Proof.
  assert (Hen : btn_enabled no_loader_page) by (exists blank_element; split; vm_compute; reflexivity).
  split; [reflexivity | split; [vm_compute; reflexivity | split; [ctrl_ids_hold | split; [vm_compute; reflexivity |]]]].
  split; [exact Hen |].
  destruct (ctrl_stuck_without_loader (mkState no_loader_page [] 0) username_element eq_refl
              ltac:(vm_compute; reflexivity) ltac:(ctrl_ids_hold) ltac:(vm_compute; reflexivity) Hen)
    as (s' & H1 & _ & H3).
  exists s'. split; assumption.
Defined.

Lemma ctrl_refines_spec_witness :
  ctrl_inv init_state /\ step btn_enabled init_state (submit_state init_state) /\
  spec_step (abs_of init_state) (abs_of (submit_state init_state)).
Proof.
  assert (Hst : step btn_enabled init_state (submit_state init_state))
    by (apply step_submit_state; exists blank_element; split; vm_compute; reflexivity).
  split; [exact init_inv | split; [exact Hst |]].
  exact (proj2 (ctrl_refines_spec _ _ init_inv Hst)).
Defined.
